(** * Head-Teacher-App: the filtering and aggregation core of [public/app.js]

    A shallow embedding of the pure logic of the directory browser
    (filterData, shouldAutoOpenCategory, computeGlobalTotals, extractYear,
    sectionKey) and of the pin store (loadPinned, savePinned, togglePinned),
    followed by the properties stated about them.

    Strings are sequences of code units; the model takes the code units
    below 256 (Rocq's [ascii]), on which [toLowerCase], the regular
    expression classes [\s] and [\d] and [includes] are defined as
    ECMAScript defines them for these code units. *)

From Stdlib Require Import Ascii String.
From Stdlib Require Import ZArith Lia Permutation Sorted.
From Stdlib Require Import Floats.PrimFloat.
From Stdlib Require Import Numbers.Cyclic.Int63.Uint63.
From stdpp Require Import base gmap sets list strings.

Local Open Scope string_scope.

(** ** ECMAScript built-ins used by the program *)

Module JS.

(** Code unit of a character, as a number. *)
Definition code (c : ascii) : N := N_of_ascii c.

(** [\d] of a regular expression without the unicode flag: 0-9. *)
Definition isDigit (c : ascii) : bool :=
  ((48 <=? code c) && (code c <=? 57))%N.

(** [\s]: tab, line feed, vertical tab, form feed, carriage return, space
    and no-break space are the white-space code units below 256. *)
Definition isWhiteSpace (c : ascii) : bool :=
  ((9 <=? code c) && (code c <=? 13) || (code c =? 32) || (code c =? 160))%N.

(** Upper-case letters below 256: A-Z, and the Latin-1 letters
    U+00C0-U+00DE except the multiplication sign U+00D7. *)
Definition isUpper (c : ascii) : bool :=
  ((65 <=? code c) && (code c <=? 90)
   || (192 <=? code c) && (code c <=? 222) && negb (code c =? 215))%N.

Definition toLowerChar (c : ascii) : ascii :=
  if isUpper c then ascii_of_N (code c + 32) else c.

(** [String.prototype.toLowerCase]. *)
Fixpoint toLowerCase (s : string) : string :=
  match s with
  | EmptyString => EmptyString
  | String c s' => String (toLowerChar c) (toLowerCase s')
  end.

(** [h.startsWith(n)]. *)
Fixpoint startsWith (h n : string) : bool :=
  match n, h with
  | EmptyString, _ => true
  | String _ _, EmptyString => false
  | String a n', String b h' => Ascii.eqb a b && startsWith h' n'
  end.

(** [h.includes(n)]: [n] occurs in [h] at some position. *)
Fixpoint includes (h n : string) : bool :=
  startsWith h n ||
  match h with
  | EmptyString => false
  | String _ h' => includes h' n
  end.

(** Does a run of white space start at the head of [s]? *)
Definition atWhiteSpace (s : string) : bool :=
  match s with
  | EmptyString => false
  | String c _ => isWhiteSpace c
  end.

(** [s.split(/\s+/)]: the pieces between the maximal runs of white space,
    empty pieces at both ends included. *)
Fixpoint splitWhiteSpace (s : string) : list string :=
  match s with
  | EmptyString => [EmptyString]
  | String c s' =>
      if isWhiteSpace c
      then if atWhiteSpace s' then splitWhiteSpace s'
           else EmptyString :: splitWhiteSpace s'
      else match splitWhiteSpace s' with
           | piece :: pieces => String c piece :: pieces
           | [] => [String c EmptyString]
           end
  end.

(** [Boolean(s)] of a string: only the empty string is falsy. *)
Definition truthy (s : string) : bool :=
  match s with EmptyString => false | String _ _ => true end.

(** [xs.join(sep)]. *)
Fixpoint join (sep : string) (xs : list string) : string :=
  match xs with
  | [] => EmptyString
  | [x] => x
  | x :: rest => x +:+ sep +:+ join sep rest
  end.

(** A template literal prints a missing property as "undefined". *)
Definition template (v : option string) : string :=
  match v with Some s => s | None => "undefined" end.

(** A non-negative integer as an IEEE 754 double (exact below 2^53). *)
Definition toNumber (n : nat) : float :=
  PrimFloat.of_uint63 (Uint63.of_Z (Z.of_nat n)).

(** What a call does: it returns, or it throws. *)
Inductive outcome (A : Type) : Type :=
| Returned (a : A)
| Thrown (error : string).
Arguments Returned {A} a.
Arguments Thrown {A} error.

(** [JSON.parse], up to what the program observes of the value: whether
    it is an array, and its items. The items are the section keys that
    savePinned writes. *)
Inductive value : Type :=
| VArray (items : list string)
| VOther.

(** [Array.isArray(v)]. *)
Definition isArray (v : value) : bool :=
  match v with VArray _ => true | VOther => false end.

(** The items that [new Set(v)] reads from an array. *)
Definition itemsOf (v : value) : list string :=
  match v with VArray items => items | VOther => [] end.

(** [s.trimStart()] and [s.trimEnd()]: white space and line terminators,
    the code units of [\s], are taken off one end. *)
Fixpoint trimStart (s : string) : string :=
  match s with
  | EmptyString => EmptyString
  | String c s' => if isWhiteSpace c then trimStart s' else s
  end.

Fixpoint trimEnd (s : string) : string :=
  match s with
  | EmptyString => EmptyString
  | String c s' =>
      match trimEnd s' with
      | EmptyString => if isWhiteSpace c then EmptyString else String c EmptyString
      | rest => String c rest
      end
  end.

(** [s.trim()]. *)
Definition trim (s : string) : string := trimEnd (trimStart s).

(** [s.slice(n)]. *)
Fixpoint slice (n : nat) (s : string) : string :=
  match n, s with
  | O, _ => s
  | S n', String _ s' => slice n' s'
  | S _, EmptyString => EmptyString
  end.

(** [s.replace(pattern, replacement)] for a string pattern: the first
    occurrence is replaced. *)
Fixpoint replace (s pattern replacement : string) : string :=
  if startsWith s pattern
  then replacement +:+ slice (String.length pattern) s
  else match s with
       | EmptyString => EmptyString
       | String c s' => String c (replace s' pattern replacement)
       end.

(** [Number(s)] for a string of decimal digits. *)
Definition digit (c : ascii) : Z := Z.of_N (code c) - 48.

Definition Number (s : string) : Z :=
  fold_left (fun n c => (10 * n + digit c)%Z) (list_ascii_of_string s) 0%Z.

(** [xs.sort(compare)] for a comparator that is a total preorder: the
    sorted permutation that keeps the order of equal items (the sort is
    stable). The first item goes before the first item of the sorted rest
    that is not smaller. *)
Fixpoint insertSorted {A} (compare : A -> A -> Z) (x : A) (sorted : list A) : list A :=
  match sorted with
  | [] => [x]
  | y :: rest =>
      if (compare x y <=? 0)%Z then x :: y :: rest
      else y :: insertSorted compare x rest
  end.

Fixpoint sort {A} (compare : A -> A -> Z) (xs : list A) : list A :=
  match xs with
  | [] => []
  | x :: rest => insertSorted compare x (sort compare rest)
  end.

(** [set.add(x)] on the items of a [Set] of strings, in insertion order. *)
Definition setAdd (x : string) (items : list string) : list string :=
  if bool_decide (x ∈ items) then items else items ++ [x].

(** [set.delete(x)] on the items of a [Set] of strings: the other items
    keep their order. *)
Definition setDelete (x : string) (items : list string) : list string :=
  List.filter (fun item => negb (String.eqb item x)) items.

End JS.

(** ** Data model: the document [data/resources.json] *)

Record Link := { label : string; url : string }.

Record SectionT := {
  s_code : string;
  s_title : string;
  s_status : option string;
  s_description : option string;
  s_links : list Link
}.

Record Category := {
  c_code : string;
  c_title : string;
  c_description : option string;
  c_links : list Link;
  c_sections : list SectionT
}.

(** The object [{...category, sections, categoryMatches}] that the map
    step of filterData builds. *)
Record FilteredCategory := {
  code : string;
  title : string;
  description : option string;
  links : list Link;
  sections : list SectionT;
  categoryMatches : bool
}.

(** The global [state]. [pinned] is a [Set] of section keys, read by [has]
    and [size] and changed by [add] and [delete]. *)
Record State := {
  categories : list Category;
  searchTerm : string;
  statusFilter : string;
  categoryFilter : string;
  showPinnedOnly : bool;
  pinned : gset string
}.

Record Totals := {
  totalSections : nat;
  allocatedSections : nat;
  pinnedCount : nat;
  allocationProgress : float
}.

(** ** Pure functions *)

Definition STORAGE_KEY : string := "wwhs-head-teacher-pinned".

Definition sectionKey (categoryCode sectionCode : string) : string :=
  categoryCode +:+ "-" +:+ sectionCode.

(** [state.pinned.has(key)]. *)
Definition has (key : string) (S : gset string) : bool :=
  bool_decide (key ∈ S).

(** [/20\d{2}/] tried at the head of [text]: the four code units matched. *)
Definition yearAt (text : string) : option string :=
  match text with
  | String c1 (String c2 (String d1 (String d2 _))) =>
      if Ascii.eqb c1 "2" && Ascii.eqb c2 "0" && JS.isDigit d1 && JS.isDigit d2
      then Some (String c1 (String c2 (String d1 (String d2 EmptyString))))
      else None
  | _ => None
  end.

(** [/20\d{2}/.exec(text)]: the match at the leftmost position. *)
Fixpoint exec20dd (text : string) : option string :=
  match yearAt text with
  | Some y => Some y
  | None =>
      match text with
      | EmptyString => None
      | String _ rest => exec20dd rest
      end
  end.

(** [extractYear(text = '')]: [None] as argument is [undefined], for which
    the default applies; [None] as result is [null]. *)
Definition extractYear (text : option string) : option string :=
  let text := match text with Some t => t | None => EmptyString end in
  exec20dd text.

(** [year !== filter] for a year that is a string or [null]: [null]
    differs from every string. *)
Definition differs (year : option string) (filter : string) : bool :=
  match year with
  | Some y => negb (String.eqb y filter)
  | None => true
  end.

(** [searchTerms] of filterData. *)
Definition searchTerms (st : State) : list string :=
  List.filter JS.truthy (JS.splitWhiteSpace (JS.toLowerCase (searchTerm st))).

(** [matchesSearch] of filterData. *)
Definition matchesSearch (terms : list string) (haystack : string) : bool :=
  forallb (fun term => JS.includes haystack term) terms.

Definition categorySearchText (category : Category) : string :=
  JS.toLowerCase
    (c_code category +:+ " " +:+ c_title category +:+ " " +:+
     JS.template (c_description category) +:+ " " +:+
     JS.join " " (List.map label (c_links category))).

(** [haystack] of the section callback. *)
Definition sectionSearchText (category : Category) (section : SectionT) : string :=
  JS.toLowerCase
    (c_code category +:+ " " +:+ c_title category +:+ " " +:+
     s_code section +:+ " " +:+ s_title section +:+ " " +:+
     JS.template (s_status section) +:+ " " +:+
     JS.template (s_description section) +:+ " " +:+
     JS.join " " (List.map (fun link => label link +:+ " " +:+ url link)
                           (s_links section))).

(** The end of the section callback, from [if (!searchTerms.length)] on:
    the search predicate. *)
Definition passesSearch (st : State) (category : Category) (section : SectionT) : bool :=
  if Nat.eqb (length (searchTerms st)) 0
  then true
  else matchesSearch (searchTerms st) (sectionSearchText category section).

(** The callback of [category.sections.filter] in filterData. *)
Definition sectionPasses (st : State) (category : Category) (section : SectionT) : bool :=
  if negb (String.eqb (categoryFilter st) "all")
     && negb (String.eqb (categoryFilter st) (c_code category))
  then false
  else if showPinnedOnly st
          && negb (has (sectionKey (c_code category) (s_code section)) (pinned st))
  then false
  else if negb (String.eqb (statusFilter st) "all")
          && differs (extractYear (s_status section)) (statusFilter st)
  then false
  else passesSearch st category section.

(** The callback of [state.categories.map] in filterData. *)
Definition filterCategory (st : State) (category : Category) : FilteredCategory :=
  let categoryMatches :=
    if Nat.eqb (length (searchTerms st)) 0 then true
    else matchesSearch (searchTerms st) (categorySearchText category) in
  let sections := List.filter (sectionPasses st category) (c_sections category) in
  {| code := c_code category;
     title := c_title category;
     description := c_description category;
     links := c_links category;
     sections := sections;
     categoryMatches := categoryMatches |}.

(** The callback of the final [.filter]:
    [category.sections.length || category.categoryMatches]. *)
Definition keepCategory (category : FilteredCategory) : bool :=
  negb (Nat.eqb (length (sections category)) 0) || categoryMatches category.

Definition filterData (st : State) : list FilteredCategory :=
  List.filter keepCategory (List.map (filterCategory st) (categories st)).

Definition shouldAutoOpenCategory (st : State) (category : FilteredCategory) : bool :=
  if negb (String.eqb (categoryFilter st) "all")
  then String.eqb (categoryFilter st) (code category)
  else if showPinnedOnly st
  then existsb (fun section =>
                  has (sectionKey (code category) (s_code section)) (pinned st))
               (sections category)
  else if JS.truthy (searchTerm st)
  then Nat.ltb 0 (length (sections category)) || categoryMatches category
  else false.

(** The two nested [forEach] loops of computeGlobalTotals, on the pair of
    counters [(totalSections, allocatedSections)]. *)
Definition countSection (counters : nat * nat) (section : SectionT) : nat * nat :=
  let '(total, allocated) := counters in
  let total := total + 1 in
  let allocated :=
    if Nat.eqb (length (s_links section)) 0 then allocated else allocated + 1 in
  (total, allocated).

Definition countCategory (counters : nat * nat) (category : Category) : nat * nat :=
  fold_left countSection (c_sections category) counters.

Definition computeGlobalTotals (st : State) : Totals :=
  let '(total, allocated) := fold_left countCategory (categories st) (0, 0) in
  let pinnedCount := size (pinned st) in
  let allocationProgress :=
    if Nat.eqb total 0 then 0%float
    else (JS.toNumber allocated / JS.toNumber total * 100)%float in
  {| totalSections := total;
     allocatedSections := allocated;
     pinnedCount := pinnedCount;
     allocationProgress := allocationProgress |}.

(** The branch of togglePinned on the set [state.pinned]. *)
Definition togglePin (S : gset string) (key : string) : gset string :=
  if has key S then S ∖ {[ key ]} else S ∪ {[ key ]}.

(** The same branch on the keys of the set in their order of insertion:
    [delete] takes the key out, [add] puts a new key last. *)
Definition toggleInserted (S : gset string) (keys : list string) (key : string)
    : list string :=
  if has key S then JS.setDelete key keys else JS.setAdd key keys.

(** The state after the pin set became [S]. *)
Definition withPinned (st : State) (S : gset string) : State :=
  {| categories := categories st;
     searchTerm := searchTerm st;
     statusFilter := statusFilter st;
     categoryFilter := categoryFilter st;
     showPinnedOnly := showPinnedOnly st;
     pinned := S |}.

(** ** The pin store: [localStorage], [JSON] and the console *)

(** The Web Storage interface, as far as the program calls it. Both calls
    may throw (storage disabled, quota exceeded). [getItem] answers [None]
    for [null], a key that is not stored. *)
Class Storage (Store : Type) := {
  getItem : Store -> string -> JS.outcome (option string);
  setItem : Store -> string -> string -> JS.outcome Store
}.

(** [JSON.parse] throws on malformed text. [JSON.stringify] is applied to
    the array [[...state.pinned]], the keys of the set in their order of
    insertion. *)
Class JSONCodec := {
  JSON_parse : string -> JS.outcome JS.value;
  JSON_stringify : list string -> string
}.

(** What the program can change: its [state], the storage, and the lines
    written to the console (message and error). The [Set] [state.pinned]
    is its keys, [pinned] of [state], and the order in which they were
    inserted, [inserted]; only the spread of savePinned reads the order. *)
Record World (Store : Type) := {
  state : State;
  inserted : list string;
  store : Store;
  console : list (string * string)
}.
Arguments state {Store} _.
Arguments inserted {Store} _.
Arguments store {Store} _.
Arguments console {Store} _.

Section PinStore.
Context {Store : Type} `{!Storage Store} `{!JSONCodec}.

(** Statements run in a world and return or throw. *)
Definition M (A : Type) : Type := World Store -> JS.outcome A * World Store.

Definition ret {A} (a : A) : M A := fun w => (JS.Returned a, w).

Definition bind {A B} (m : M A) (k : A -> M B) : M B :=
  fun w =>
    match m w with
    | (JS.Returned a, w') => k a w'
    | (JS.Thrown error, w') => (JS.Thrown error, w')
    end.

(** [try { body } catch (error) { handler }]. *)
Definition tryCatch {A} (body : M A) (handler : string -> M A) : M A :=
  fun w =>
    match body w with
    | (JS.Returned a, w') => (JS.Returned a, w')
    | (JS.Thrown error, w') => handler error w'
    end.

#[local] Instance M_ret : MRet M := @ret.
#[local] Instance M_bind : MBind M := fun A B k m => bind m k.

Definition localStorage_getItem (key : string) : M (option string) :=
  fun w => (getItem (store w) key, w).

Definition localStorage_setItem (key value : string) : M unit :=
  fun w =>
    match setItem (store w) key value with
    | JS.Returned store' =>
        (JS.Returned tt,
         {| state := state w; inserted := inserted w; store := store';
            console := console w |})
    | JS.Thrown error => (JS.Thrown error, w)
    end.

Definition parse (text : string) : M JS.value :=
  fun w => (JSON_parse text, w).

Definition console_warn (message error : string) : M unit :=
  fun w =>
    (JS.Returned tt,
     {| state := state w; inserted := inserted w; store := store w;
        console := console w ++ [(message, error)] |}).

Definition getState : M State := fun w => (JS.Returned (state w), w).

(** [state.pinned.delete(key)] and [state.pinned.add(key)]: the keys and
    their order change, the other fields of [state] stay. *)
Definition pinned_delete (key : string) : M unit :=
  fun w =>
    (JS.Returned tt,
     {| state := withPinned (state w) (pinned (state w) ∖ {[ key ]});
        inserted := JS.setDelete key (inserted w);
        store := store w; console := console w |}).

Definition pinned_add (key : string) : M unit :=
  fun w =>
    (JS.Returned tt,
     {| state := withPinned (state w) (pinned (state w) ∪ {[ key ]});
        inserted := JS.setAdd key (inserted w);
        store := store w; console := console w |}).

(** [[...state.pinned]]: the keys in their order of insertion. *)
Definition spreadPinned : M (list string) :=
  fun w => (JS.Returned (inserted w), w).

Definition loadPinned : M (gset string) :=
  tryCatch
    (stored ← localStorage_getItem STORAGE_KEY;
     match stored with
     | None => ret ∅
     | Some text =>
         if negb (JS.truthy text) then ret ∅
         else
           parsed ← parse text;
           ret (list_to_set
                  (if JS.isArray parsed then JS.itemsOf parsed else []))
     end)
    (fun error =>
       console_warn "Failed to read pinned resources from storage" error;;
       ret ∅).

Definition savePinned : M unit :=
  tryCatch
    (keys ← spreadPinned;
     localStorage_setItem STORAGE_KEY (JSON_stringify keys))
    (fun error => console_warn "Failed to persist pinned resources" error).

(** [render()] rebuilds the page from [state]; the page is not part of the
    world and [render] writes neither [state] nor the storage. *)
Definition render : M unit := ret tt.

Definition togglePinned (key : string) : M unit :=
  st ← getState;
  (if has key (pinned st) then pinned_delete key else pinned_add key);;
  savePinned;;
  render.

End PinStore.

(** ** Notions used to state the properties *)

(** [needle] is a substring of [text]. *)
Definition Substring (needle text : string) : Prop :=
  exists before after, text = before +:+ needle +:+ after.

(** A token: a non-empty string without white space. *)
Fixpoint noWhiteSpace (s : string) : bool :=
  match s with
  | EmptyString => true
  | String c s' => negb (JS.isWhiteSpace c) && noWhiteSpace s'
  end.

Definition isToken (s : string) : bool := JS.truthy s && noWhiteSpace s.

(** [y] is "20" followed by two digits. *)
Definition IsYear (y : string) : Prop :=
  exists d1 d2,
    y = String "2" (String "0" (String d1 (String d2 EmptyString)))
    /\ JS.isDigit d1 = true /\ JS.isDigit d2 = true.

(** The pattern [20\d{2}] matches [y] in [text] at position [i]. *)
Definition MatchAt (text : string) (i : nat) (y : string) : Prop :=
  exists before after,
    text = before +:+ y +:+ after /\ String.length before = i /\ IsYear y.

(** Category [category] of the dataset is in the output of filterData. *)
Definition CategoryShown (st : State) (category : Category) : Prop :=
  In category (categories st) /\ In (filterCategory st category) (filterData st).

(** Section [section] of category [category] is in the output of
    filterData: the category is, and its filtered sections hold it. *)
Definition SectionShown (st : State) (category : Category) (section : SectionT) : Prop :=
  CategoryShown st category /\
  In section (sections (filterCategory st category)).

(** All sections of the dataset, in order. *)
Definition allSections (st : State) : list SectionT :=
  flat_map c_sections (categories st).

(** A section with at least one link. *)
Definition allocated (section : SectionT) : bool :=
  negb (Nat.eqb (length (s_links section)) 0).

(** Every term of the search is a substring of [text]. *)
Definition AllTermsIn (st : State) (text : string) : Prop :=
  Forall (fun term => Substring term text) (searchTerms st).

(** From the words of the specification, to compare with
    [sectionSearchText]: the searchable fields of a section (category code
    and title, section code, title, status, description, and the labels
    and URLs of the section links), concatenated and in lower case. A
    status or description that is absent adds no text. *)
Definition fieldText (field : option string) : string :=
  match field with Some text => text | None => EmptyString end.

Definition fieldsSearchText (category : Category) (section : SectionT) : string :=
  JS.toLowerCase
    (c_code category +:+ " " +:+ c_title category +:+ " " +:+
     s_code section +:+ " " +:+ s_title section +:+ " " +:+
     fieldText (s_status section) +:+ " " +:+
     fieldText (s_description section) +:+ " " +:+
     JS.join " " (List.map (fun link => label link +:+ " " +:+ url link)
                           (s_links section))).

(** The state with the status filter switched off. *)
Definition anyStatus (st : State) : State :=
  {| categories := categories st;
     searchTerm := searchTerm st;
     statusFilter := "all";
     categoryFilter := categoryFilter st;
     showPinnedOnly := showPinnedOnly st;
     pinned := pinned st |}.

(** The state with other filter fields. *)
Definition withFilters (st : State) (search status category : string)
    (pinnedOnly : bool) : State :=
  {| categories := categories st;
     searchTerm := search;
     statusFilter := status;
     categoryFilter := category;
     showPinnedOnly := pinnedOnly;
     pinned := pinned st |}.

(** ** Statistics, options and handlers *)

Record Stats := {
  sectionCount : nat;
  linkCount : nat
}.

(** [sections.reduce((acc, section) => acc + section.links.length, 0)]. *)
Definition countLinks (secs : list SectionT) : nat :=
  fold_left (fun acc section => acc + length (s_links section)) secs 0.

(** The [forEach] of computeStats, on the pair of counters
    [(sectionCount, linkCount)]. *)
Definition computeStats (cats : list FilteredCategory) : Stats :=
  let '(sectionCount, linkCount) :=
    fold_left (fun '(sectionCount, linkCount) category =>
                 (sectionCount + length (sections category),
                  linkCount + countLinks (sections category)))
              cats (0, 0) in
  {| sectionCount := sectionCount; linkCount := linkCount |}.

(** The set [years] that populateStatusOptions and updateInsights fill:
    [if (year) years.add(year)] for every section of every category. *)
Definition addYear (years : list string) (section : SectionT) : list string :=
  match extractYear (s_status section) with
  | Some year => if JS.truthy year then JS.setAdd year years else years
  | None => years
  end.

Definition collectYears (st : State) : list string :=
  fold_left (fun years category => fold_left addYear (c_sections category) years)
            (categories st) [].

(** [(a, b) => Number(b) - Number(a)]. *)
Definition byYearDescending (a b : string) : Z := (JS.Number b - JS.Number a)%Z.

(** populateStatusOptions: the values of the options appended to the status
    filter, in order. *)
Definition populateStatusOptions (st : State) : list string :=
  JS.sort byYearDescending (collectYears st).

(** populateCategoryFilter: value and text of the options appended. *)
Definition populateCategoryFilter (st : State) : list (string * string) :=
  List.map (fun category =>
              (c_code category, c_code category +:+ ". " +:+ c_title category))
           (categories st).

(** The rows of updateInsights. [latestUpdate] is [None] where the page
    shows the dash that stands for no year. *)
Record Insights := {
  insightSections : nat;
  insightLinks : nat;
  insightPinned : nat;
  latestUpdate : option string
}.

Definition updateInsights (st : State) : Insights :=
  let totalSections :=
    fold_left (fun acc category => acc + length (c_sections category))
              (categories st) 0 in
  let totalLinks :=
    fold_left (fun acc category => acc + countLinks (c_sections category))
              (categories st) 0 in
  let years := collectYears st in
  let latestYear :=
    match JS.sort byYearDescending years with
    | year :: _ => if JS.truthy year then Some year else None
    | [] => None
    end in
  {| insightSections := totalSections;
     insightLinks := totalLinks;
     insightPinned := size (pinned st);
     latestUpdate := latestYear |}.

(** The assignments to [state] of the listeners that bindEventListeners
    installs, of init and of togglePinned. *)
Inductive Event : Type :=
| Loaded (cats : list Category)
| SearchInput (value : string)
| ClearSearch
| StatusChange (value : string)
| CategoryChange (value : string)
| PinnedToggle (checked : bool)
| PinClick (key : string).

Definition handle (event : Event) (st : State) : State :=
  match event with
  | Loaded cats =>
      {| categories := cats; searchTerm := searchTerm st;
         statusFilter := statusFilter st; categoryFilter := categoryFilter st;
         showPinnedOnly := showPinnedOnly st; pinned := pinned st |}
  | SearchInput value =>
      withFilters st (JS.trim value) (statusFilter st) (categoryFilter st)
                  (showPinnedOnly st)
  | ClearSearch =>
      withFilters st EmptyString (statusFilter st) (categoryFilter st)
                  (showPinnedOnly st)
  | StatusChange value =>
      withFilters st (searchTerm st) value (categoryFilter st) (showPinnedOnly st)
  | CategoryChange value =>
      withFilters st (searchTerm st) (statusFilter st) value (showPinnedOnly st)
  | PinnedToggle checked =>
      withFilters st (searchTerm st) (statusFilter st) (categoryFilter st) checked
  | PinClick key => withPinned st (togglePin (pinned st) key)
  end.

(** The literal [state] of the program, with the pin set that loadPinned
    returned. *)
Definition startState (pins : gset string) : State :=
  {| categories := [];
     searchTerm := EmptyString;
     statusFilter := "all";
     categoryFilter := "all";
     showPinnedOnly := false;
     pinned := pins |}.

(** The states that events lead to. *)
Inductive Reachable : State -> Prop :=
| reach_start pins : Reachable (startState pins)
| reach_event event st : Reachable st -> Reachable (handle event st).

(** updateClearSearchButton: is the button made visible? *)
Definition updateClearSearchButton (st : State) : bool :=
  JS.truthy (searchTerm st).

(** The test [!filtered.length] of render: the page shows the empty state
    instead of the categories. *)
Definition rendersEmptyState (st : State) : bool :=
  Nat.eqb (length (filterData st)) 0.

(** The [id] that render gives the element of a category, and the code
    that the observer of setupObserver reads back from it. *)
Definition categoryElementId (categoryCode : string) : string :=
  "category-" +:+ categoryCode.

Definition observedCode (id : string) : string :=
  JS.replace id "category-" EmptyString.

(** The keys of all sections of the dataset, in order. *)
Definition allKeys (st : State) : list string :=
  flat_map (fun category =>
              List.map (fun section => sectionKey (c_code category) (s_code section))
                       (c_sections category))
           (categories st).

(** Does a string hold the code unit [c]? *)
Fixpoint holds (c : ascii) (s : string) : bool :=
  match s with
  | EmptyString => false
  | String d s' => Ascii.eqb c d || holds c s'
  end.

(** ** A small dataset and an in-memory storage, for the examples *)

Module Sample.

Definition guide : Link :=
  {| label := "Staff Guide"; url := "https://example.org/guide.pdf" |}.

Definition A1 : SectionT :=
  {| s_code := "A1"; s_title := "Roll marking"; s_status := Some "Updated 2023";
     s_description := Some "Daily foo procedures"; s_links := [guide] |}.

Definition A2 : SectionT :=
  {| s_code := "A2"; s_title := "Excursions"; s_status := Some "TBD";
     s_description := None; s_links := [] |}.

Definition B1 : SectionT :=
  {| s_code := "B1"; s_title := "Budget"; s_status := None;
     s_description := Some "Faculty budget 2024"; s_links := [] |}.

Definition catA : Category :=
  {| c_code := "A"; c_title := "Administration"; c_description := Some "Office";
     c_links := [guide]; c_sections := [A1; A2] |}.

Definition catB : Category :=
  {| c_code := "B"; c_title := "Finance"; c_description := None;
     c_links := []; c_sections := [B1] |}.

(** A category without sections. *)
Definition catC : Category :=
  {| c_code := "C"; c_title := "Welfare"; c_description := None;
     c_links := []; c_sections := [] |}.

(** No filter set, section A1 pinned. *)
Definition initial : State :=
  {| categories := [catA; catB; catC];
     searchTerm := "";
     statusFilter := "all";
     categoryFilter := "all";
     showPinnedOnly := false;
     pinned := {[ "A-A1" ]} |}.

Definition pinnedOnly : State := withFilters initial "" "all" "all" true.

(** No category at all. *)
Definition empty : State :=
  {| categories := [];
     searchTerm := "";
     statusFilter := "all";
     categoryFilter := "all";
     showPinnedOnly := false;
     pinned := ∅ |}.

(** A storage that holds at most one value and can be switched off for
    reading or for writing. *)
Record MemStore := {
  held : option (string * string);
  readable : bool;
  writable : bool
}.

#[local] Instance memStorage : Storage MemStore := {|
  getItem s key :=
    if readable s
    then JS.Returned
           match held s with
           | Some (k, v) => if String.eqb k key then Some v else None
           | None => None
           end
    else JS.Thrown "SecurityError";
  setItem s key value :=
    if writable s
    then JS.Returned {| held := Some (key, value);
                        readable := readable s; writable := writable s |}
    else JS.Thrown "QuotaExceededError"
|}.

(** A key between double quotes, and the text of an array of one key. *)
Definition quoted (key : string) : string :=
  String "034" (key +:+ String "034" EmptyString).

Definition oneKey : string := "[" +:+ quoted "A-A1" +:+ "]".

(** The texts of the two arrays of the keys A-A1 and B-B1. *)
Definition keysAB : string :=
  "[" +:+ quoted "A-A1" +:+ "," +:+ quoted "B-B1" +:+ "]".

Definition keysBA : string :=
  "[" +:+ quoted "B-B1" +:+ "," +:+ quoted "A-A1" +:+ "]".

(** A reader that knows seven texts, and the writer of arrays of keys that
    need no escape. *)
#[local] Instance toyJSON : JSONCodec := {|
  JSON_parse text :=
    if String.eqb text "[]" then JS.Returned (JS.VArray [])
    else if String.eqb text oneKey then JS.Returned (JS.VArray ["A-A1"])
    else if String.eqb text keysAB then JS.Returned (JS.VArray ["A-A1"; "B-B1"])
    else if String.eqb text keysBA then JS.Returned (JS.VArray ["B-B1"; "A-A1"])
    else if String.eqb text "{}" || String.eqb text "null" || String.eqb text "42"
    then JS.Returned JS.VOther
    else JS.Thrown "SyntaxError";
  JSON_stringify keys := "[" +:+ JS.join "," (List.map quoted keys) +:+ "]"
|}.

Definition world (s : MemStore) : World MemStore :=
  {| state := initial; inserted := ["A-A1"]; store := s; console := [] |}.

End Sample.

(** * Properties *)

(** ** Strings *)

Lemma append_cons (c : ascii) (s t : string) :
  String c s +:+ t = String c (s +:+ t).
Proof. reflexivity. Qed.

Lemma append_empty_r (s : string) : s +:+ EmptyString = s.
Proof. induction s as [|c s IH]; [reflexivity|]. rewrite append_cons, IH. reflexivity. Qed.

Lemma append_assoc (s t u : string) : (s +:+ t) +:+ u = s +:+ t +:+ u.
Proof.
  induction s as [|c s IH]; [reflexivity|].
  rewrite !append_cons, IH. reflexivity.
Qed.

Lemma startsWith_spec (h n : string) :
  JS.startsWith h n = true <-> exists after, h = n +:+ after.
Proof.
  revert h. induction n as [|a n IH]; intros h.
  - destruct h; (split; [intros _; eexists; reflexivity | reflexivity]).
  - destruct h as [|b h]; cbn [JS.startsWith].
    + split; [discriminate | intros [after Heq]; discriminate].
    + rewrite andb_true_iff, IH, Ascii.eqb_eq. split.
      * intros [-> [after ->]]. exists after. reflexivity.
      * intros [after Heq]. rewrite append_cons in Heq.
        injection Heq as -> ->. eauto.
Qed.

Lemma includes_spec (h n : string) :
  JS.includes h n = true <-> Substring n h.
Proof.
  unfold Substring. induction h as [|c h IH].
  - cbn [JS.includes]. rewrite orb_false_r, startsWith_spec. split.
    + intros [after ->]. exists EmptyString, after. reflexivity.
    + intros [[|b before] [after Heq]].
      * exists after. exact Heq.
      * rewrite append_cons in Heq. discriminate.
  - cbn [JS.includes]. rewrite orb_true_iff, IH, startsWith_spec. split.
    + intros [[after ->] | [before [after ->]]].
      * exists EmptyString, after. reflexivity.
      * exists (String c before), after. reflexivity.
    + intros [[|b before] [after Heq]].
      * left. exists after. exact Heq.
      * right. rewrite append_cons in Heq. injection Heq as -> ->.
        exists before, after. reflexivity.
Qed.

Lemma matchesSearch_spec (terms : list string) (haystack : string) :
  matchesSearch terms haystack = true
  <-> Forall (fun term => Substring term haystack) terms.
Proof.
  unfold matchesSearch. rewrite forallb_forall, List.Forall_forall.
  split; intros H term Hin; apply includes_spec, H, Hin.
Qed.

Lemma matchesSearch_Permutation (terms terms' : list string) (haystack : string) :
  Permutation terms terms' ->
  matchesSearch terms haystack = matchesSearch terms' haystack.
Proof.
  unfold matchesSearch.
  induction 1 as [|t l l' _ IH|t u l|l l' l'' _ IH1 _ IH2]; cbn [forallb].
  - reflexivity.
  - rewrite IH. reflexivity.
  - destruct (JS.includes haystack t), (JS.includes haystack u); reflexivity.
  - rewrite IH1. exact IH2.
Qed.

Lemma Substring_refl (s : string) : Substring s s.
Proof. exists EmptyString, EmptyString. rewrite append_empty_r. reflexivity. Qed.

Lemma Substring_app_l (n a b : string) : Substring n a -> Substring n (a +:+ b).
Proof.
  intros (before & after & ->). exists before, (after +:+ b).
  rewrite !append_assoc. reflexivity.
Qed.

Lemma Substring_app_r (n a b : string) : Substring n b -> Substring n (a +:+ b).
Proof.
  intros (before & after & ->). exists (a +:+ before), after.
  rewrite !append_assoc. reflexivity.
Qed.

Lemma Substring_join (sep n x : string) (xs : list string) :
  In x xs -> Substring n x -> Substring n (JS.join sep xs).
Proof.
  intros Hin Hsub. induction xs as [|y ys IH]; [destruct Hin|].
  destruct ys as [|z ys].
  - destruct Hin as [-> | []]. exact Hsub.
  - change (JS.join sep (y :: z :: ys)) with (y +:+ sep +:+ JS.join sep (z :: ys)).
    destruct Hin as [-> | Hin].
    + apply Substring_app_l, Hsub.
    + apply Substring_app_r, Substring_app_r, IH, Hin.
Qed.

(** ** Tokens of the search string *)

Lemma splitWhiteSpace_cons (s : string) :
  exists piece pieces, JS.splitWhiteSpace s = piece :: pieces.
Proof.
  induction s as [|c s (piece & pieces & IH)]; cbn [JS.splitWhiteSpace].
  - eauto.
  - rewrite IH. destruct (JS.isWhiteSpace c), (JS.atWhiteSpace s); eauto.
Qed.

(** Reading a token first puts it in front of the first piece. *)
Lemma splitWhiteSpace_token (t s piece : string) (pieces : list string) :
  noWhiteSpace t = true ->
  JS.splitWhiteSpace s = piece :: pieces ->
  JS.splitWhiteSpace (t +:+ s) = (t +:+ piece) :: pieces.
Proof.
  intros Ht Hs. induction t as [|c t IH]; [exact Hs|].
  cbn [noWhiteSpace] in Ht. apply andb_true_iff in Ht as [Hc Ht].
  apply negb_true_iff in Hc.
  rewrite append_cons. cbn [JS.splitWhiteSpace]. rewrite Hc, (IH Ht).
  reflexivity.
Qed.

Lemma atWhiteSpace_token (t s : string) :
  isToken t = true -> JS.atWhiteSpace (t +:+ s) = false.
Proof.
  unfold isToken. destruct t as [|c t]; [discriminate|].
  cbn [JS.truthy noWhiteSpace andb]. intros [Hc _]%andb_true_iff.
  apply negb_true_iff in Hc. exact Hc.
Qed.

Lemma atWhiteSpace_join (ts : list string) :
  Forall (fun t => isToken t = true) ts ->
  JS.atWhiteSpace (JS.join " " ts) = false.
Proof.
  intros Hts. destruct Hts as [|t ts Ht Hts]; [reflexivity|].
  destruct ts as [|u ts].
  - rewrite <- (append_empty_r t). apply atWhiteSpace_token, Ht.
  - apply atWhiteSpace_token, Ht.
Qed.

(** Splitting the tokens joined by single spaces gives the tokens back. *)
Lemma tokens_join (ts : list string) :
  Forall (fun t => isToken t = true) ts ->
  List.filter JS.truthy (JS.splitWhiteSpace (JS.join " " ts)) = ts.
Proof.
  induction 1 as [|t ts Ht Hts IH]; [reflexivity|].
  assert (JS.truthy t = true /\ noWhiteSpace t = true) as [Hne Hws]
    by (apply andb_true_iff, Ht).
  destruct ts as [|u ts].
  - cbn [JS.join]. rewrite <- (append_empty_r t).
    rewrite (splitWhiteSpace_token t EmptyString EmptyString []) by easy.
    rewrite append_empty_r. cbn [List.filter]. rewrite Hne. reflexivity.
  - change (JS.join " " (t :: u :: ts))
      with (t +:+ String " " (JS.join " " (u :: ts))).
    rewrite (splitWhiteSpace_token t _ EmptyString
               (JS.splitWhiteSpace (JS.join " " (u :: ts)))); [|exact Hws|].
    + rewrite append_empty_r. cbn [List.filter]. rewrite Hne, IH. reflexivity.
    + cbn [JS.splitWhiteSpace]. rewrite (atWhiteSpace_join _ Hts). reflexivity.
Qed.

Lemma toLowerCase_append (s t : string) :
  JS.toLowerCase (s +:+ t) = JS.toLowerCase s +:+ JS.toLowerCase t.
Proof.
  induction s as [|c s IH]; [reflexivity|].
  rewrite append_cons. cbn [JS.toLowerCase]. rewrite IH. reflexivity.
Qed.

Lemma toLowerChar_isWhiteSpace (c : ascii) :
  JS.isWhiteSpace (JS.toLowerChar c) = JS.isWhiteSpace c.
Proof. destruct c as [[] [] [] [] [] [] [] []]; reflexivity. Qed.

Lemma toLowerCase_isToken (t : string) :
  isToken (JS.toLowerCase t) = isToken t.
Proof.
  unfold isToken. f_equal; [destruct t; reflexivity|].
  induction t as [|c t IH]; [reflexivity|].
  cbn [JS.toLowerCase noWhiteSpace]. rewrite toLowerChar_isWhiteSpace, IH.
  reflexivity.
Qed.

Lemma toLowerCase_join (ts : list string) :
  JS.toLowerCase (JS.join " " ts) = JS.join " " (List.map JS.toLowerCase ts).
Proof.
  induction ts as [|t ts IH]; [reflexivity|].
  destruct ts as [|u ts]; [reflexivity|].
  change (JS.join " " (t :: u :: ts)) with (t +:+ " " +:+ JS.join " " (u :: ts)).
  rewrite !toLowerCase_append, IH. reflexivity.
Qed.

(** The terms of a search string made of tokens and single spaces are the
    tokens, in lower case. *)
Lemma searchTerms_join (st : State) (ts : list string) :
  Forall (fun t => isToken t = true) ts ->
  searchTerm st = JS.join " " ts ->
  searchTerms st = List.map JS.toLowerCase ts.
Proof.
  intros Hts Hst. unfold searchTerms. rewrite Hst, toLowerCase_join.
  apply tokens_join. apply List.Forall_map.
  eapply List.Forall_impl; [|exact Hts].
  intros t Ht. cbn beta. rewrite toLowerCase_isToken. exact Ht.
Qed.

(** Lower-casing the search string and splitting it gives the pieces of
    the search string, in lower case. *)
Lemma splitWhiteSpace_toLowerCase (s : string) :
  JS.splitWhiteSpace (JS.toLowerCase s)
  = List.map JS.toLowerCase (JS.splitWhiteSpace s).
Proof.
  induction s as [|c s IH]; [reflexivity|].
  cbn [JS.toLowerCase JS.splitWhiteSpace].
  rewrite toLowerChar_isWhiteSpace, IH.
  replace (JS.atWhiteSpace (JS.toLowerCase s)) with (JS.atWhiteSpace s)
    by (destruct s; cbn [JS.toLowerCase JS.atWhiteSpace];
        [reflexivity | rewrite toLowerChar_isWhiteSpace; reflexivity]).
  destruct (JS.isWhiteSpace c); [destruct (JS.atWhiteSpace s); reflexivity|].
  destruct (JS.splitWhiteSpace s); reflexivity.
Qed.

Lemma searchTerms_lowercase (st : State) :
  searchTerms st
  = List.map JS.toLowerCase
      (List.filter JS.truthy (JS.splitWhiteSpace (searchTerm st))).
Proof.
  unfold searchTerms. rewrite splitWhiteSpace_toLowerCase.
  induction (JS.splitWhiteSpace (searchTerm st)) as [|piece pieces IH];
    [reflexivity|].
  cbn [List.map List.filter].
  replace (JS.truthy (JS.toLowerCase piece)) with (JS.truthy piece)
    by (destruct piece; reflexivity).
  destruct (JS.truthy piece); cbn [List.map]; rewrite IH; reflexivity.
Qed.

(** Every term is a token: not empty, and free of white space. *)
Lemma splitWhiteSpace_noWhiteSpace (s : string) :
  Forall (fun piece => noWhiteSpace piece = true) (JS.splitWhiteSpace s).
Proof.
  induction s as [|c s IH]; cbn [JS.splitWhiteSpace].
  - repeat constructor.
  - destruct (JS.isWhiteSpace c) eqn:Hc.
    + destruct (JS.atWhiteSpace s); [exact IH|]. constructor; [reflexivity|exact IH].
    + destruct (JS.splitWhiteSpace s) as [|piece pieces].
      * repeat constructor. cbn [noWhiteSpace]. rewrite Hc. reflexivity.
      * inversion IH as [|? ? Hp Hps]; subst. constructor; [|exact Hps].
        cbn [noWhiteSpace]. rewrite Hc, Hp. reflexivity.
Qed.

Lemma searchTerms_tokens (st : State) :
  Forall (fun term => isToken term = true) (searchTerms st).
Proof.
  unfold searchTerms. apply List.Forall_forall. intros term Hin.
  apply filter_In in Hin as [Hin Hne]. unfold isToken. rewrite Hne.
  pose proof (splitWhiteSpace_noWhiteSpace (JS.toLowerCase (searchTerm st))) as H.
  rewrite List.Forall_forall in H. apply H, Hin.
Qed.

(** ** The search predicate *)

Lemma Substring_toLowerCase (n h : string) :
  Substring n h -> Substring (JS.toLowerCase n) (JS.toLowerCase h).
Proof.
  intros (before & after & ->).
  exists (JS.toLowerCase before), (JS.toLowerCase after).
  rewrite !toLowerCase_append. reflexivity.
Qed.

(** The text searched holds every searchable field, in lower case. *)
Lemma sectionSearchText_fields (category : Category) (section : SectionT) (field : string) :
  In field ([c_code category; c_title category; s_code section; s_title section;
             JS.template (s_status section); JS.template (s_description section)]
            ++ flat_map (fun link => [label link; url link]) (s_links section)) ->
  Substring (JS.toLowerCase field) (sectionSearchText category section).
Proof.
  intros Hin. apply Substring_toLowerCase.
  apply in_app_or in Hin as [Hin | Hin].
  - cbn [In] in Hin.
    destruct Hin as [<- | [<- | [<- | [<- | [<- | [<- | []]]]]]];
      repeat first [ apply Substring_app_l, Substring_refl
                   | apply Substring_app_r ].
  - apply in_flat_map in Hin as (link & Hlink & Hfield).
    do 12 apply Substring_app_r.
    apply (Substring_join _ _ (label link +:+ " " +:+ url link)).
    + apply (in_map (fun link => label link +:+ " " +:+ url link)), Hlink.
    + destruct Hfield as [<- | [<- | []]].
      * apply Substring_app_l, Substring_refl.
      * do 2 apply Substring_app_r. apply Substring_refl.
Qed.

Lemma passesSearch_spec (st : State) (category : Category) (section : SectionT) :
  passesSearch st category section = true
  <-> AllTermsIn st (sectionSearchText category section).
Proof.
  unfold passesSearch, AllTermsIn.
  destruct (searchTerms st) as [|term terms] eqn:Hterms.
  - cbn. split; [constructor | reflexivity].
  - cbn [length Nat.eqb]. apply matchesSearch_spec.
Qed.

Lemma passesSearch_matchesSearch (st : State) (category : Category) (section : SectionT) :
  passesSearch st category section
  = matchesSearch (searchTerms st) (sectionSearchText category section).
Proof.
  unfold passesSearch. destruct (searchTerms st); reflexivity.
Qed.

Lemma searchTerms_withFilters (st : State) (search status category : string) (only : bool) :
  searchTerms (withFilters st search status category only)
  = List.filter JS.truthy (JS.splitWhiteSpace (JS.toLowerCase search)).
Proof. reflexivity. Qed.

Lemma searchTerms_empty (st : State) :
  searchTerm st = EmptyString -> searchTerms st = [].
Proof. unfold searchTerms. intros ->. reflexivity. Qed.

(** X22. The search predicate on the text that the callback builds. A
    section passes exactly when every term (the white-space separated
    tokens of the search string, in lower case) is a substring of that
    text, which holds the category code and title, the section code and
    title, the status and the description as the template literal prints
    them ("undefined" for one that is absent) and the labels and URLs of
    the section links. A search string whose terms are a permutation of
    those of another passes the same sections. When status and
    description are present, the text is that of the fields alone. *)
Theorem search_is_conjunctive (st : State) (category : Category) (section : SectionT) :
  (passesSearch st category section = true
   <-> Forall (fun term => Substring term (sectionSearchText category section))
              (searchTerms st))
  /\ searchTerms st
     = List.map JS.toLowerCase
         (List.filter JS.truthy (JS.splitWhiteSpace (searchTerm st)))
  /\ Forall (fun term => isToken term = true) (searchTerms st)
  /\ (forall field,
        In field ([c_code category; c_title category; s_code section;
                   s_title section; JS.template (s_status section);
                   JS.template (s_description section)]
                  ++ flat_map (fun link => [label link; url link])
                              (s_links section)) ->
        Substring (JS.toLowerCase field) (sectionSearchText category section))
  /\ (forall st', Permutation (searchTerms st) (searchTerms st') ->
               passesSearch st' category section = passesSearch st category section)
  /\ (forall tokens tokens' status cat only,
        Forall (fun t => isToken t = true) tokens ->
        Permutation tokens tokens' ->
        searchTerms (withFilters st (JS.join " " tokens) status cat only)
          = List.map JS.toLowerCase tokens
        /\ passesSearch (withFilters st (JS.join " " tokens') status cat only)
                        category section
           = passesSearch (withFilters st (JS.join " " tokens) status cat only)
                          category section)
  /\ (forall status description,
        s_status section = Some status ->
        s_description section = Some description ->
        sectionSearchText category section = fieldsSearchText category section).
Proof.
  split; [apply passesSearch_spec|].
  split; [apply searchTerms_lowercase|].
  split; [apply searchTerms_tokens|].
  split; [apply sectionSearchText_fields|]. split; [|split].
  - intros st' Hperm. rewrite !passesSearch_matchesSearch.
    symmetry. apply matchesSearch_Permutation, Hperm.
  - intros tokens tokens' status cat only Htok Hperm.
    assert (Forall (fun t => isToken t = true) tokens') as Htok'.
    { eapply Permutation_Forall; [exact Hperm | exact Htok]. }
    split; [apply searchTerms_join; [exact Htok | reflexivity]|].
    rewrite !passesSearch_matchesSearch.
    rewrite (searchTerms_join (withFilters st (JS.join " " tokens) status cat only)
               tokens Htok eq_refl).
    rewrite (searchTerms_join (withFilters st (JS.join " " tokens') status cat only)
               tokens' Htok' eq_refl).
    apply matchesSearch_Permutation, Permutation_map, Permutation_sym, Hperm.
  - intros status description Hstatus Hdescription.
    unfold sectionSearchText, fieldsSearchText.
    rewrite Hstatus, Hdescription. reflexivity.
Qed.

(** The search strings "foo DAILY" and "  daily   Foo " have the same
    terms up to order, and section A1 of the sample passes both. *)
Lemma search_is_conjunctive_witness :
  passesSearch (withFilters Sample.initial "  daily   Foo " "all" "all" false)
               Sample.catA Sample.A1
  = passesSearch (withFilters Sample.initial "foo DAILY" "all" "all" false)
                 Sample.catA Sample.A1
  /\ passesSearch (withFilters Sample.initial "foo DAILY" "all" "all" false)
                  Sample.catA Sample.A1 = true
  /\ passesSearch (withFilters Sample.initial "foo DAILY" "all" "all" false)
                  Sample.catA Sample.A2 = false.
Proof.
  split; [|split; vm_compute; reflexivity].
  apply (search_is_conjunctive
           (withFilters Sample.initial "foo DAILY" "all" "all" false)
           Sample.catA Sample.A1).
  change (Permutation ["foo"; "daily"] ["daily"; "foo"]). apply perm_swap.
Defined.

(** C2. The code breaks the claim at a section without description.
    The template literal of the callback prints the missing property as
    "undefined", which createResourceCard and render never show. The
    search "Excursions fine" has the terms "excursions" and "fine";
    section A2 of the sample (title "Excursions", status "TBD", no
    description, no link) passes the search predicate and is in the
    output of filterData, because "fine" occurs in "undefined", though
    "fine" occurs in none of its searchable fields. *)
Theorem search_matches_the_text_undefined :
  s_description Sample.A2 = None
  /\ searchTerms (withFilters Sample.initial "Excursions fine" "all" "all" false)
     = ["excursions"; "fine"]
  /\ sectionSearchText Sample.catA Sample.A2
     = "a administration a2 excursions tbd undefined "
  /\ passesSearch (withFilters Sample.initial "Excursions fine" "all" "all" false)
                  Sample.catA Sample.A2 = true
  /\ SectionShown (withFilters Sample.initial "Excursions fine" "all" "all" false)
                  Sample.catA Sample.A2
  /\ fieldsSearchText Sample.catA Sample.A2
     = "a administration a2 excursions tbd  "
  /\ ~ Substring "fine" (fieldsSearchText Sample.catA Sample.A2).
Proof.
  split; [reflexivity|]. split; [vm_compute; reflexivity|].
  split; [vm_compute; reflexivity|]. split; [vm_compute; reflexivity|].
  split; [|split; [vm_compute; reflexivity|]].
  - split; [split|].
    + left. reflexivity.
    + unfold filterData. apply filter_In. split; [|vm_compute; reflexivity].
      apply in_map. left. reflexivity.
    + apply filter_In. split; [right; left; reflexivity | vm_compute; reflexivity].
  - intros Hsub%includes_spec. vm_compute in Hsub. discriminate.
Qed.

(** ** The section filter *)

Lemma differs_false (year : option string) (filter : string) :
  differs year filter = false <-> year = Some filter.
Proof.
  destruct year as [y|]; cbn [differs].
  - rewrite negb_false_iff, String.eqb_eq. split; [intros ->; reflexivity|].
    intros [= ->]. reflexivity.
  - split; discriminate.
Qed.

Lemma has_spec (key : string) (S : gset string) :
  has key S = true <-> key ∈ S.
Proof. unfold has. apply bool_decide_eq_true. Qed.

Lemma sectionPasses_spec (st : State) (category : Category) (section : SectionT) :
  sectionPasses st category section = true
  <-> (categoryFilter st = "all" \/ categoryFilter st = c_code category)
      /\ (showPinnedOnly st = false
          \/ sectionKey (c_code category) (s_code section) ∈ pinned st)
      /\ (statusFilter st = "all"
          \/ extractYear (s_status section) = Some (statusFilter st))
      /\ passesSearch st category section = true.
Proof.
  unfold sectionPasses.
  rewrite <- has_spec, <- differs_false, <- !String.eqb_eq.
  destruct (String.eqb (categoryFilter st) "all"),
           (String.eqb (categoryFilter st) (c_code category)),
           (showPinnedOnly st),
           (has (sectionKey (c_code category) (s_code section)) (pinned st)),
           (String.eqb (statusFilter st) "all"),
           (differs (extractYear (s_status section)) (statusFilter st));
    cbn; intuition congruence.
Qed.

Lemma keepCategory_sections (st : State) (category : Category) (section : SectionT) :
  In section (sections (filterCategory st category)) ->
  keepCategory (filterCategory st category) = true.
Proof.
  unfold keepCategory. destruct (sections (filterCategory st category)); [intros []|].
  reflexivity.
Qed.

Lemma CategoryShown_keepCategory (st : State) (category : Category) :
  CategoryShown st category
  <-> In category (categories st) /\ keepCategory (filterCategory st category) = true.
Proof.
  unfold CategoryShown, filterData. rewrite filter_In. split.
  - intros [Hin [_ Hkeep]]. auto.
  - intros [Hin Hkeep]. repeat split; [exact Hin | | exact Hkeep].
    apply in_map, Hin.
Qed.

Lemma SectionShown_spec (st : State) (category : Category) (section : SectionT) :
  SectionShown st category section
  <-> In category (categories st) /\ In section (c_sections category)
      /\ sectionPasses st category section = true.
Proof.
  unfold SectionShown. rewrite CategoryShown_keepCategory. split.
  - intros [[Hcat _] Hsec]. cbn [filterCategory sections] in Hsec.
    apply filter_In in Hsec. tauto.
  - intros (Hcat & Hsec & Hpass).
    assert (In section (sections (filterCategory st category))) as Hin.
    { cbn [filterCategory sections]. apply filter_In. auto. }
    eauto using keepCategory_sections.
Qed.

(** C4. A section is in the filtered output exactly when it is a section
    of the dataset that satisfies the four predicates of the callback,
    tested in the order category filter, pinned only, status filter,
    search; with an empty search string every section passes the search
    predicate, and the three other filters alone decide. *)
Theorem section_shown_iff_filters (st : State) (category : Category) (section : SectionT) :
  (SectionShown st category section
   <-> In category (categories st) /\ In section (c_sections category)
       /\ (categoryFilter st = "all" \/ categoryFilter st = c_code category)
       /\ (showPinnedOnly st = false
           \/ sectionKey (c_code category) (s_code section) ∈ pinned st)
       /\ (statusFilter st = "all"
           \/ extractYear (s_status section) = Some (statusFilter st))
       /\ AllTermsIn st (sectionSearchText category section))
  /\ (searchTerm st = EmptyString ->
      passesSearch st category section = true
      /\ (sectionPasses st category section = true
          <-> (categoryFilter st = "all" \/ categoryFilter st = c_code category)
              /\ (showPinnedOnly st = false
                  \/ sectionKey (c_code category) (s_code section) ∈ pinned st)
              /\ (statusFilter st = "all"
                  \/ extractYear (s_status section) = Some (statusFilter st)))).
Proof.
  split.
  - rewrite SectionShown_spec, sectionPasses_spec, passesSearch_spec. tauto.
  - intros Hempty.
    assert (passesSearch st category section = true) as Hsearch.
    { unfold passesSearch. rewrite (searchTerms_empty st Hempty). reflexivity. }
    rewrite sectionPasses_spec. tauto.
Qed.

(** With the filters category "A" and year "2023" on the sample, A1 is
    shown and A2, whose status has no year, is not. *)
Lemma section_shown_iff_filters_witness :
  SectionShown (withFilters Sample.initial "" "2023" "A" false) Sample.catA Sample.A1
  /\ ~ SectionShown (withFilters Sample.initial "" "2023" "A" false)
                    Sample.catA Sample.A2.
Proof.
  split.
  - apply (section_shown_iff_filters
             (withFilters Sample.initial "" "2023" "A" false) Sample.catA Sample.A1).
    split; [left; reflexivity|]. split; [left; reflexivity|].
    split; [right; reflexivity|]. split; [left; reflexivity|].
    split; [right; reflexivity|]. constructor.
  - intros Hshown.
    apply (section_shown_iff_filters
             (withFilters Sample.initial "" "2023" "A" false) Sample.catA Sample.A2)
      in Hshown as (_ & _ & _ & _ & [Hall | Hyear] & _); discriminate.
Defined.

(** ** Which categories are shown *)

Lemma categoryMatches_spec (st : State) (category : Category) :
  categoryMatches (filterCategory st category) = true
  <-> AllTermsIn st (categorySearchText category).
Proof.
  cbn [filterCategory categoryMatches]. unfold AllTermsIn.
  destruct (searchTerms st) as [|term terms].
  - cbn. split; [constructor | reflexivity].
  - cbn [length Nat.eqb]. apply matchesSearch_spec.
Qed.

Lemma keepCategory_spec (st : State) (category : Category) :
  keepCategory (filterCategory st category) = true
  <-> (exists section, In section (c_sections category)
                       /\ sectionPasses st category section = true)
      \/ AllTermsIn st (categorySearchText category).
Proof.
  rewrite <- categoryMatches_spec. unfold keepCategory.
  rewrite orb_true_iff. apply or_iff_compat_r.
  cbn [filterCategory sections].
  destruct (List.filter (sectionPasses st category) (c_sections category))
    as [|section rest] eqn:Hfilter.
  - split; [discriminate|]. intros [section Hsection].
    apply filter_In in Hsection. rewrite Hfilter in Hsection. destruct Hsection.
  - split; [intros _ | reflexivity]. exists section.
    apply filter_In. rewrite Hfilter. left. reflexivity.
Qed.

(** filterData keeps the order of the dataset. *)
Lemma filterData_map (st : State) :
  filterData st
  = List.map (filterCategory st)
      (List.filter (fun category => keepCategory (filterCategory st category))
                   (categories st)).
Proof.
  unfold filterData. induction (categories st) as [|category rest IH]; [reflexivity|].
  cbn [List.map List.filter].
  destruct (keepCategory (filterCategory st category)); cbn [List.map]; rewrite IH;
    reflexivity.
Qed.



(** ** Year extraction *)

Lemma yearAt_spec (text y : string) :
  yearAt text = Some y <-> MatchAt text 0 y.
Proof.
  unfold MatchAt, IsYear. split.
  - destruct text as [|c1 [|c2 [|d1 [|d2 after]]]]; try discriminate.
    cbn [yearAt].
    destruct (Ascii.eqb c1 "2") eqn:H1; [|discriminate].
    destruct (Ascii.eqb c2 "0") eqn:H2; [|discriminate].
    destruct (JS.isDigit d1) eqn:H3; [|discriminate].
    destruct (JS.isDigit d2) eqn:H4; [|discriminate].
    apply Ascii.eqb_eq in H1, H2. subst c1 c2. intros [= <-].
    exists EmptyString, after. repeat split. exists d1, d2. auto.
  - intros ([|c before] & after & -> & Hlen & d1 & d2 & -> & Hd1 & Hd2);
      [|discriminate].
    change (yearAt (String "2" (String "0" (String d1 (String d2 after))))
            = Some (String "2" (String "0" (String d1 (String d2 EmptyString))))).
    unfold yearAt. rewrite Hd1, Hd2. reflexivity.
Qed.

Lemma MatchAt_empty (i : nat) (y : string) : ~ MatchAt EmptyString i y.
Proof.
  intros ([|c before] & after & Heq & _ & d1 & d2 & -> & _); discriminate.
Qed.

Lemma MatchAt_succ (c : ascii) (rest : string) (i : nat) (y : string) :
  MatchAt (String c rest) (S i) y <-> MatchAt rest i y.
Proof.
  unfold MatchAt. split.
  - intros ([|b before] & after & Heq & Hlen & Hy); [discriminate|].
    rewrite append_cons in Heq. injection Heq as -> ->.
    injection Hlen as Hlen. eauto.
  - intros (before & after & -> & Hlen & Hy).
    exists (String c before), after. cbn [String.length]. auto.
Qed.

Lemma exec20dd_None (text : string) :
  exec20dd text = None <-> forall i y, ~ MatchAt text i y.
Proof.
  induction text as [|c rest IH]; cbn [exec20dd].
  - change (yearAt EmptyString) with (@None string).
    split; [intros _ i y; apply MatchAt_empty | reflexivity].
  - destruct (yearAt (String c rest)) as [y0|] eqn:Hat.
    + split; [discriminate|]. intros Hnone.
      apply yearAt_spec in Hat. destruct (Hnone 0 y0 Hat).
    + rewrite IH. split; intros Hnone i y.
      * destruct i as [|i]; [rewrite <- yearAt_spec, Hat; discriminate|].
        rewrite MatchAt_succ. apply Hnone.
      * rewrite <- (MatchAt_succ c). apply Hnone.
Qed.

Lemma exec20dd_Some (text y : string) :
  exec20dd text = Some y
  <-> exists i, MatchAt text i y /\ forall j y', MatchAt text j y' -> i <= j.
Proof.
  induction text as [|c rest IH]; cbn [exec20dd].
  - change (yearAt EmptyString) with (@None string).
    split; [discriminate|]. intros (i & Hat & _). destruct (MatchAt_empty _ _ Hat).
  - destruct (yearAt (String c rest)) as [y0|] eqn:Hat.
    + split.
      * intros [= <-]. exists 0. split; [apply yearAt_spec, Hat | lia].
      * intros (i & Hi & Hmin). apply yearAt_spec in Hat.
        assert (i = 0) as -> by (specialize (Hmin 0 y0 Hat); lia).
        apply yearAt_spec in Hi, Hat. congruence.
    + rewrite IH. split.
      * intros (i & Hi & Hmin). exists (S i). split; [apply MatchAt_succ, Hi|].
        intros [|j] y' Hj; [rewrite <- yearAt_spec, Hat in Hj; discriminate|].
        apply MatchAt_succ, Hmin in Hj. lia.
      * intros ([|i] & Hi & Hmin);
          [rewrite <- yearAt_spec, Hat in Hi; discriminate|].
        exists i. split; [apply MatchAt_succ in Hi; exact Hi|].
        intros j y' Hj. apply (MatchAt_succ c) in Hj. apply Hmin in Hj. lia.
Qed.

Lemma sectionPasses_anyStatus (st : State) (category : Category) (section : SectionT) :
  statusFilter st <> "all" ->
  sectionPasses st category section = true
  <-> sectionPasses (anyStatus st) category section = true
      /\ extractYear (s_status section) = Some (statusFilter st).
Proof.
  intros Hyear. rewrite !sectionPasses_spec.
  change (passesSearch (anyStatus st) category section)
    with (passesSearch st category section).
  cbn [anyStatus categoryFilter showPinnedOnly pinned statusFilter]. tauto.
Qed.

(** C5. extractYear returns the match of "20" followed by two digits at
    the leftmost position where the pattern matches, and null when it
    matches nowhere: "2023" for "Updated 2023", null for "TBD". With the
    status filter set to a year, the output holds exactly the sections
    that the other filters let through and whose status has that year. *)
Theorem extractYear_leftmost_and_filter :
  (forall text y,
      extractYear (Some text) = Some y
      <-> exists i, MatchAt text i y /\ forall j y', MatchAt text j y' -> i <= j)
  /\ (forall text,
        extractYear (Some text) = None <-> forall i y, ~ MatchAt text i y)
  /\ extractYear (Some "Updated 2023") = Some "2023"
  /\ extractYear (Some "TBD") = None
  /\ (forall st category section,
        statusFilter st <> "all" ->
        SectionShown st category section
        <-> SectionShown (anyStatus st) category section
            /\ extractYear (s_status section) = Some (statusFilter st)).
Proof.
  split; [intros text y; apply exec20dd_Some|].
  split; [intros text; apply exec20dd_None|].
  split; [reflexivity|]. split; [reflexivity|].
  intros st category section Hyear.
  rewrite !SectionShown_spec, (sectionPasses_anyStatus st category section Hyear).
  cbn [anyStatus categories]. tauto.
Qed.

(** The year filter "2023" on the sample: section A1 of 2023 is shown,
    section A2 ("TBD") is not. *)
Lemma extractYear_leftmost_and_filter_witness :
  SectionShown (withFilters Sample.initial "" "2023" "all" false) Sample.catA Sample.A1
  /\ ~ SectionShown (withFilters Sample.initial "" "2023" "all" false)
                    Sample.catA Sample.A2.
Proof.
  pose proof extractYear_leftmost_and_filter as (_ & _ & _ & _ & Hfilter).
  split.
  - apply Hfilter; [discriminate|]. split; [|reflexivity].
    apply SectionShown_spec.
    split; [left; reflexivity|]. split; [left; reflexivity|].
    vm_compute. reflexivity.
  - intros Hshown. apply Hfilter in Hshown as [_ Hyear]; [|discriminate].
    vm_compute in Hyear. discriminate.
Defined.

(** C10. Without a status, extractYear is called with undefined, takes
    the empty string as its text and returns null; such a section passes
    no status filter other than "all", so it is not shown then. *)
Theorem missing_status_has_no_year :
  extractYear None = None
  /\ (forall st category section,
        s_status section = None ->
        statusFilter st <> "all" ->
        sectionPasses st category section = false
        /\ ~ SectionShown st category section).
Proof.
  split; [reflexivity|]. intros st category section Hstatus Hyear.
  assert (sectionPasses st category section = false) as Hfalse.
  { destruct (sectionPasses st category section) eqn:Hpass; [|reflexivity].
    apply sectionPasses_spec in Hpass as (_ & _ & [Hall | Hsome] & _).
    - contradiction.
    - rewrite Hstatus in Hsome. discriminate. }
  split; [exact Hfalse|]. rewrite SectionShown_spec, Hfalse.
  intros (_ & _ & Habsurd). discriminate.
Qed.

(** Section B1 of the sample has no status: the filter "2024" hides it. *)
Lemma missing_status_has_no_year_witness :
  sectionPasses (withFilters Sample.initial "" "2024" "all" false)
                Sample.catB Sample.B1 = false.
Proof.
  pose proof missing_status_has_no_year as [_ Hmissing].
  apply (Hmissing (withFilters Sample.initial "" "2024" "all" false)
                  Sample.catB Sample.B1); [reflexivity | discriminate].
Defined.

(** ** Auto-expand *)

Lemma truthy_spec (s : string) : JS.truthy s = true <-> s <> EmptyString.
Proof. destruct s; cbn; split; congruence. Qed.

Lemma somePinned_spec (st : State) (shown : FilteredCategory) :
  existsb (fun section =>
             has (sectionKey (code shown) (s_code section)) (pinned st))
          (sections shown) = true
  <-> exists section, In section (sections shown)
                      /\ sectionKey (code shown) (s_code section) ∈ pinned st.
Proof.
  rewrite existsb_exists.
  split; intros (section & Hin & Hpin); exists section; split; auto;
    apply has_spec, Hpin.
Qed.

(** C7. shouldAutoOpenCategory decides by the first of three fields that
    is set: with a category filter, by the code alone; else with the
    pinned filter, by whether some section shown is pinned; else with a
    search string, by whether a section is shown or the category matched;
    else it answers false. The answer of the first branch depends on no
    other field of the state, and that of the second on the pin set only. *)
Theorem auto_open_precedence (st : State) (shown : FilteredCategory) :
  (categoryFilter st <> "all" ->
   (shouldAutoOpenCategory st shown = true <-> categoryFilter st = code shown))
  /\ (categoryFilter st = "all" -> showPinnedOnly st = true ->
      (shouldAutoOpenCategory st shown = true
       <-> exists section,
             In section (sections shown)
             /\ sectionKey (code shown) (s_code section) ∈ pinned st))
  /\ (categoryFilter st = "all" -> showPinnedOnly st = false ->
      searchTerm st <> EmptyString ->
      (shouldAutoOpenCategory st shown = true
       <-> sections shown <> [] \/ categoryMatches shown = true))
  /\ (categoryFilter st = "all" -> showPinnedOnly st = false ->
      searchTerm st = EmptyString ->
      shouldAutoOpenCategory st shown = false)
  /\ (forall st', categoryFilter st <> "all" ->
                  categoryFilter st' = categoryFilter st ->
                  shouldAutoOpenCategory st' shown = shouldAutoOpenCategory st shown)
  /\ (forall st', categoryFilter st = "all" -> categoryFilter st' = "all" ->
                  showPinnedOnly st = true -> showPinnedOnly st' = true ->
                  pinned st' = pinned st ->
                  shouldAutoOpenCategory st' shown = shouldAutoOpenCategory st shown).
Proof.
  unfold shouldAutoOpenCategory.
  split; [|split; [|split; [|split; [|split]]]].
  - intros Hset.
    destruct (String.eqb_spec (categoryFilter st) "all") as [|_]; [contradiction|].
    cbn [negb]. apply String.eqb_eq.
  - intros Hall Hpin. rewrite Hall, Hpin. cbn [String.eqb Ascii.eqb Bool.eqb negb].
    apply somePinned_spec.
  - intros Hall Hpin Hsearch. rewrite Hall, Hpin.
    apply truthy_spec in Hsearch. rewrite Hsearch.
    cbn [String.eqb Ascii.eqb Bool.eqb negb]. rewrite orb_true_iff.
    apply or_iff_compat_r. destruct (sections shown); cbn; split; congruence.
  - intros Hall Hpin Hsearch. rewrite Hall, Hpin, Hsearch. reflexivity.
  - intros st' Hset Hsame. rewrite Hsame.
    destruct (String.eqb_spec (categoryFilter st) "all") as [|_]; [contradiction|].
    reflexivity.
  - intros st' Hall Hall' Hpin Hpin' Hsame.
    rewrite Hall, Hall', Hpin, Hpin', Hsame. reflexivity.
Qed.

(** The three branches on the sample: the category filter "B" decides
    against category A whatever the pinned filter and the search say. *)
Lemma auto_open_precedence_witness :
  shouldAutoOpenCategory (withFilters Sample.initial "roll" "all" "B" true)
                         (filterCategory Sample.initial Sample.catA) = false
  /\ shouldAutoOpenCategory Sample.pinnedOnly
                            (filterCategory Sample.pinnedOnly Sample.catA) = true
  /\ shouldAutoOpenCategory Sample.initial
                            (filterCategory Sample.initial Sample.catA) = false.
Proof.
  split; [|split].
  - apply not_true_is_false. intros Hopen.
    apply (proj1 (auto_open_precedence _ _)) in Hopen; discriminate.
  - apply (proj1 (proj2 (auto_open_precedence _ _))); try reflexivity.
    exists Sample.A1. split; [left; reflexivity|].
    apply has_spec. vm_compute. reflexivity.
  - apply (proj1 (proj2 (proj2 (proj2 (auto_open_precedence _ _))))); reflexivity.
Defined.

(** ** Global totals *)

Lemma countSection_fold (secs : list SectionT) (total allocatedCount : nat) :
  fold_left countSection secs (total, allocatedCount)
  = (total + length secs, allocatedCount + length (List.filter allocated secs)).
Proof.
  revert total allocatedCount.
  induction secs as [|section secs IH]; intros total allocatedCount.
  - cbn. f_equal; lia.
  - cbn [fold_left countSection List.filter]. unfold allocated at 1.
    destruct (Nat.eqb (length (s_links section)) 0); cbn [negb];
      rewrite IH; cbn [length]; f_equal; lia.
Qed.

Lemma countCategory_fold (cats : list Category) (total allocatedCount : nat) :
  fold_left countCategory cats (total, allocatedCount)
  = (total + length (flat_map c_sections cats),
     allocatedCount + length (List.filter allocated (flat_map c_sections cats))).
Proof.
  revert total allocatedCount.
  induction cats as [|category cats IH]; intros total allocatedCount.
  - cbn. f_equal; lia.
  - cbn [fold_left flat_map]. unfold countCategory at 2.
    rewrite countSection_fold, IH, List.filter_app, !List.length_app.
    f_equal; lia.
Qed.

Lemma allocated_spec (section : SectionT) :
  allocated section = true <-> s_links section <> [].
Proof.
  unfold allocated. destruct (s_links section); cbn; split; congruence.
Qed.

(** C9. computeGlobalTotals counts all sections of the dataset, those with
    at least one link, and the keys of the pin set; the progress is
    allocatedSections / totalSections * 100 in double precision, and 0 for
    a dataset without sections, where nothing is divided. *)
Theorem global_totals (st : State) :
  totalSections (computeGlobalTotals st) = length (allSections st)
  /\ allocatedSections (computeGlobalTotals st)
     = length (List.filter allocated (allSections st))
  /\ (forall section, allocated section = true <-> s_links section <> [])
  /\ pinnedCount (computeGlobalTotals st) = size (pinned st)
  /\ allocationProgress (computeGlobalTotals st)
     = if Nat.eqb (length (allSections st)) 0 then 0%float
       else (JS.toNumber (allocatedSections (computeGlobalTotals st))
             / JS.toNumber (totalSections (computeGlobalTotals st)) * 100)%float.
Proof.
  unfold computeGlobalTotals, allSections.
  rewrite countCategory_fold. cbn [Nat.add].
  repeat split; try reflexivity; apply allocated_spec.
Qed.

(** C3. Two states with the same dataset and the same pin set have the
    same global totals, whatever their search string, status filter,
    category filter and pinned-only flag. *)
Theorem totals_ignore_filters (st st' : State) :
  categories st = categories st' ->
  pinned st = pinned st' ->
  computeGlobalTotals st = computeGlobalTotals st'.
Proof.
  intros Hcats Hpins. unfold computeGlobalTotals. rewrite Hcats, Hpins. reflexivity.
Qed.

(** On the sample: one of three sections has a link; setting all four
    filters leaves the totals as they are. *)
Lemma totals_ignore_filters_witness :
  computeGlobalTotals (withFilters Sample.initial "foo" "2023" "B" true)
  = computeGlobalTotals Sample.initial.
Proof.
  apply (totals_ignore_filters (withFilters Sample.initial "foo" "2023" "B" true)
                               Sample.initial); reflexivity.
Defined.

Example global_totals_sample :
  totalSections (computeGlobalTotals Sample.initial) = 3
  /\ allocatedSections (computeGlobalTotals Sample.initial) = 1
  /\ pinnedCount (computeGlobalTotals Sample.initial) = 1
  /\ allocationProgress (computeGlobalTotals Sample.initial) = (1 / 3 * 100)%float
  /\ allocationProgress (computeGlobalTotals Sample.empty) = 0%float.
Proof. repeat split; vm_compute; reflexivity. Qed.

(** ** Pin toggle *)

Lemma togglePin_elem (S : gset string) (key k : string) :
  k ∈ togglePin S key <-> (k ∈ S /\ k <> key) \/ (k = key /\ key ∉ S).
Proof.
  unfold togglePin, has. case_bool_decide as Hin.
  - rewrite elem_of_difference, elem_of_singleton. tauto.
  - rewrite elem_of_union, elem_of_singleton.
    split; [intros [Hk | ->]; [left|right]; split; auto; congruence | tauto].
Qed.

Lemma togglePin_twice (S : gset string) (key : string) :
  togglePin (togglePin S key) key = S.
Proof.
  apply set_eq. intros k. rewrite !togglePin_elem.
  destruct (decide (k = key)) as [->|Hne]; [|tauto].
  destruct (decide (key ∈ S)); tauto.
Qed.

Section PinStoreProperties.
Context {Store : Type} `{!Storage Store} `{!JSONCodec}.

Lemma savePinned_run (w : World Store) :
  savePinned w
  = match setItem (store w) STORAGE_KEY (JSON_stringify (inserted w)) with
    | JS.Returned store' =>
        (JS.Returned tt,
         {| state := state w; inserted := inserted w; store := store';
            console := console w |})
    | JS.Thrown error =>
        (JS.Returned tt,
         {| state := state w; inserted := inserted w; store := store w;
            console := console w
                       ++ [("Failed to persist pinned resources", error)] |})
    end.
Proof.
  unfold savePinned, tryCatch, mbind, M_bind, bind, spreadPinned,
    localStorage_setItem.
  destruct (setItem _ _ _); reflexivity.
Qed.

Lemma togglePinned_run (key : string) (w : World Store) :
  togglePinned key w
  = savePinned
      {| state := withPinned (state w) (togglePin (pinned (state w)) key);
         inserted := toggleInserted (pinned (state w)) (inserted w) key;
         store := store w; console := console w |}.
Proof.
  unfold togglePinned, mbind, M_bind, bind, getState, render, ret,
    togglePin, toggleInserted.
  destruct (has key (pinned (state w))); unfold pinned_delete, pinned_add;
    (destruct (savePinned _) as [[[]|error] w'] eqn:Hsave; [reflexivity|]);
    rewrite savePinned_run in Hsave; destruct (setItem _ _ _); discriminate.
Qed.

(** C6. The toggle adds the key when it is absent and removes it when it
    is present, and changes the membership of no other key: the result is
    the symmetric difference of the set and the key. Two toggles of the
    same key give the set back, also through togglePinned on the state. *)
Theorem toggle_is_symmetric_difference (S : gset string) (key : string) :
  (forall k, k ∈ togglePin S key <-> (k ∈ S /\ k <> key) \/ (k = key /\ key ∉ S))
  /\ togglePin S key = (S ∖ {[ key ]}) ∪ ({[ key ]} ∖ S)
  /\ togglePin (togglePin S key) key = S
  /\ (forall w : World Store,
        pinned (state (togglePinned key w).2) = togglePin (pinned (state w)) key
        /\ pinned (state (togglePinned key (togglePinned key w).2).2)
           = pinned (state w)).
Proof.
  split; [intros k; apply togglePin_elem|].
  split.
  { apply set_eq. intros k.
    rewrite togglePin_elem, elem_of_union, !elem_of_difference, !elem_of_singleton.
    split; [intros [[? ?] | [-> ?]]; auto | intros [[? ?] | [-> ?]]; auto]. }
  split; [apply togglePin_twice|].
  assert (forall k (w : World Store),
             pinned (state (togglePinned k w).2) = togglePin (pinned (state w)) k)
    as Hone.
  { intros k w. rewrite togglePinned_run, savePinned_run.
    destruct (setItem _ _ _); reflexivity. }
  intros w. split; [apply Hone|]. rewrite !Hone. apply togglePin_twice.
Qed.

(** ** Reading and writing the storage *)

Lemma loadPinned_run (w : World Store) :
  loadPinned w
  = match getItem (store w) STORAGE_KEY with
    | JS.Returned None => (JS.Returned ∅, w)
    | JS.Returned (Some text) =>
        if JS.truthy text
        then match JSON_parse text with
             | JS.Returned (JS.VArray items) => (JS.Returned (list_to_set items), w)
             | JS.Returned JS.VOther => (JS.Returned ∅, w)
             | JS.Thrown error =>
                 (JS.Returned ∅,
                  {| state := state w; inserted := inserted w; store := store w;
                     console :=
                       console w
                       ++ [("Failed to read pinned resources from storage", error)] |})
             end
        else (JS.Returned ∅, w)
    | JS.Thrown error =>
        (JS.Returned ∅,
         {| state := state w; inserted := inserted w; store := store w;
            console :=
              console w
              ++ [("Failed to read pinned resources from storage", error)] |})
    end.
Proof.
  unfold loadPinned, tryCatch, mbind, M_bind, bind, localStorage_getItem.
  destruct (getItem (store w) STORAGE_KEY) as [[text|]|error]; try reflexivity.
  destruct (JS.truthy text); cbn [negb]; [|reflexivity].
  unfold parse. destruct (JSON_parse text) as [[items|]|error]; reflexivity.
Qed.

(** C8. loadPinned returns a set and never throws; for a key that is not
    stored, for text that JSON.parse rejects and for a value that is not an
    array the set is empty, as it is when the storage itself throws.
    savePinned never throws: when the write throws, a line goes to the
    console, and after togglePinned the pin set of the state is the toggled
    one all the same. *)
Theorem pin_store_never_raises (w : World Store) :
  (exists S w', loadPinned w = (JS.Returned S, w')
                /\ state w' = state w /\ store w' = store w)
  /\ (getItem (store w) STORAGE_KEY = JS.Returned None ->
      loadPinned w = (JS.Returned ∅, w))
  /\ (forall text error,
        getItem (store w) STORAGE_KEY = JS.Returned (Some text) ->
        JSON_parse text = JS.Thrown error ->
        (loadPinned w).1 = JS.Returned ∅)
  /\ (forall text,
        getItem (store w) STORAGE_KEY = JS.Returned (Some text) ->
        JSON_parse text = JS.Returned JS.VOther ->
        loadPinned w = (JS.Returned ∅, w))
  /\ (forall error,
        getItem (store w) STORAGE_KEY = JS.Thrown error ->
        (loadPinned w).1 = JS.Returned ∅)
  /\ (exists w', savePinned w = (JS.Returned tt, w') /\ state w' = state w)
  /\ (forall key,
        exists w', togglePinned key w = (JS.Returned tt, w')
                   /\ pinned (state w') = togglePin (pinned (state w)) key)
  /\ (forall key error,
        setItem (store w) STORAGE_KEY
          (JSON_stringify (toggleInserted (pinned (state w)) (inserted w) key))
        = JS.Thrown error ->
        togglePinned key w
        = (JS.Returned tt,
           {| state := withPinned (state w) (togglePin (pinned (state w)) key);
              inserted := toggleInserted (pinned (state w)) (inserted w) key;
              store := store w;
              console := console w
                         ++ [("Failed to persist pinned resources", error)] |})).
Proof.
  split; [|split; [|split; [|split; [|split; [|split; [|split]]]]]].
  - rewrite loadPinned_run.
    destruct (getItem (store w) STORAGE_KEY) as [[text|]|error]; eauto.
    destruct (JS.truthy text); eauto.
    destruct (JSON_parse text) as [[items|]|error]; eauto.
  - intros Hget. rewrite loadPinned_run, Hget. reflexivity.
  - intros text error Hget Hparse. rewrite loadPinned_run, Hget, Hparse.
    destruct (JS.truthy text); reflexivity.
  - intros text Hget Hparse. rewrite loadPinned_run, Hget, Hparse.
    destruct (JS.truthy text); reflexivity.
  - intros error Hget. rewrite loadPinned_run, Hget. reflexivity.
  - rewrite savePinned_run. destruct (setItem _ _ _); eauto.
  - intros key. rewrite togglePinned_run, savePinned_run.
    cbn [state inserted store console]. destruct (setItem _ _ _); eauto.
  - intros key error Hset. rewrite togglePinned_run, savePinned_run.
    cbn [state inserted store console]. rewrite Hset. reflexivity.
Qed.

End PinStoreProperties.

#[local] Existing Instances Sample.memStorage Sample.toyJSON.

(** A storage that refuses to write: the toggle of B-B1 leaves a line on
    the console and the key in the pin set. *)
Lemma pin_store_never_raises_witness :
  togglePinned "B-B1"
    (Sample.world {| Sample.held := None; Sample.readable := true;
                     Sample.writable := false |})
  = (JS.Returned tt,
     {| state := withPinned Sample.initial {[ "A-A1"; "B-B1" ]};
        inserted := ["A-A1"; "B-B1"];
        store := {| Sample.held := None; Sample.readable := true;
                    Sample.writable := false |};
        console := [("Failed to persist pinned resources", "QuotaExceededError")] |}).
Proof.
  pose proof (pin_store_never_raises
                (Sample.world {| Sample.held := None; Sample.readable := true;
                                 Sample.writable := false |}))
    as (_ & _ & _ & _ & _ & _ & _ & Hfail).
  rewrite (Hfail "B-B1" "QuotaExceededError"); [|reflexivity].
  vm_compute. reflexivity.
Defined.

Example loadPinned_sample :
  (loadPinned (Sample.world {| Sample.held := None; Sample.readable := true;
                               Sample.writable := true |})).1
  = JS.Returned ∅
  /\ (loadPinned (Sample.world {| Sample.held := Some (STORAGE_KEY, Sample.oneKey);
                                  Sample.readable := true;
                                  Sample.writable := true |})).1
     = JS.Returned {[ "A-A1" ]}
  /\ (loadPinned (Sample.world {| Sample.held := Some (STORAGE_KEY, "{}");
                                  Sample.readable := true;
                                  Sample.writable := true |})).1
     = JS.Returned ∅
  /\ (loadPinned (Sample.world {| Sample.held := Some (STORAGE_KEY, "[oops");
                                  Sample.readable := true;
                                  Sample.writable := true |})).1
     = JS.Returned ∅
  /\ (loadPinned (Sample.world {| Sample.held := None; Sample.readable := false;
                                  Sample.writable := true |})).1
     = JS.Returned ∅.
Proof. repeat split; vm_compute; reflexivity. Qed.

Example toggle_sample :
  togglePin {[ "A-A1" ]} "B-B1" = {[ "A-A1"; "B-B1" ]}
  /\ togglePin {[ "A-A1"; "B-B1" ]} "B-B1" = {[ "A-A1" ]}.
Proof. split; vm_compute; reflexivity. Qed.

(** What savePinned writes, loadPinned reads back. *)
Example save_then_load_sample :
  (loadPinned
     (savePinned (Sample.world {| Sample.held := None; Sample.readable := true;
                                  Sample.writable := true |})).2).1
  = JS.Returned {[ "A-A1" ]}.
Proof. vm_compute. reflexivity. Qed.

(** * Further properties of the program *)

(** ** Statistics of the filtered view *)

Lemma fold_left_add {A} (f : A -> nat) (xs : list A) (start : nat) :
  fold_left (fun acc x => acc + f x) xs start = start + list_sum (List.map f xs).
Proof.
  revert start. induction xs as [|x xs IH]; intros start; cbn.
  - lia.
  - rewrite IH. unfold list_sum. lia.
Qed.

Lemma length_flat_map_sum {A B} (f : A -> list B) (xs : list A) :
  length (flat_map f xs) = list_sum (List.map (fun x => length (f x)) xs).
Proof.
  induction xs as [|x xs IH]; [reflexivity|].
  cbn. rewrite List.length_app, IH. reflexivity.
Qed.

Lemma countLinks_spec (secs : list SectionT) :
  countLinks secs = length (flat_map s_links secs).
Proof.
  unfold countLinks. rewrite fold_left_add, length_flat_map_sum. reflexivity.
Qed.

Lemma computeStats_fold (cats : list FilteredCategory) (n m : nat) :
  fold_left (fun '(sectionCount, linkCount) category =>
               (sectionCount + length (sections category),
                linkCount + countLinks (sections category)))
            cats (n, m)
  = (n + length (flat_map sections cats),
     m + length (flat_map s_links (flat_map sections cats))).
Proof.
  revert n m. induction cats as [|category cats IH]; intros n m.
  - cbn. f_equal; lia.
  - cbn [fold_left flat_map]. rewrite IH, countLinks_spec, flat_map_app, !List.length_app.
    f_equal; lia.
Qed.

(** The sections that the page shows, in order. *)
Lemma shown_sections (st : State) :
  flat_map sections (filterData st)
  = flat_map (fun category =>
                List.filter (sectionPasses st category) (c_sections category))
             (categories st).
Proof.
  unfold filterData. induction (categories st) as [|category cats IH]; [reflexivity|].
  cbn [List.map List.filter flat_map]. rewrite <- IH.
  destruct (keepCategory (filterCategory st category)) eqn:Hkeep; [reflexivity|].
  unfold keepCategory in Hkeep. apply orb_false_iff in Hkeep as [Hnone _].
  apply negb_false_iff, Nat.eqb_eq, nil_length_inv in Hnone.
  cbn [filterCategory sections] in Hnone. rewrite Hnone. reflexivity.
Qed.

Lemma filter_sublist {A} (f : A -> bool) (xs : list A) :
  List.filter f xs `sublist_of` xs.
Proof.
  induction xs as [|x xs IH]; [constructor|].
  cbn [List.filter]. destruct (f x); [apply sublist_skip | apply sublist_cons]; exact IH.
Qed.

Lemma flat_map_sublist {A B} (f g : A -> list B) (xs : list A) :
  (forall x, f x `sublist_of` g x) ->
  flat_map f xs `sublist_of` flat_map g xs.
Proof.
  intros Hfg. induction xs as [|x xs IH]; [constructor|].
  cbn [flat_map]. apply sublist_app; [apply Hfg | exact IH].
Qed.

Lemma flat_map_sublist_arg {A B} (f : A -> list B) (xs ys : list A) :
  xs `sublist_of` ys -> flat_map f xs `sublist_of` flat_map f ys.
Proof.
  induction 1 as [|x xs ys _ IH|x xs ys _ IH]; cbn [flat_map].
  - constructor.
  - apply sublist_app; [reflexivity | exact IH].
  - apply sublist_inserts_l, IH.
Qed.

Lemma filterData_shown_sublist (st : State) :
  flat_map sections (filterData st) `sublist_of` allSections st.
Proof.
  rewrite shown_sections. apply flat_map_sublist. intros category.
  apply filter_sublist.
Qed.

(** X1. The filtered view keeps the order of the dataset and invents
    nothing: the codes of the categories shown are a subsequence of the
    codes of the dataset, the sections of a category shown are a
    subsequence of its sections, and all sections shown, in order, are a
    subsequence of all sections of the dataset. *)
Theorem filterData_keeps_order (st : State) :
  List.map code (filterData st) `sublist_of` List.map c_code (categories st)
  /\ (forall category,
        sections (filterCategory st category) `sublist_of` c_sections category)
  /\ flat_map sections (filterData st) `sublist_of` allSections st.
Proof.
  split; [|split].
  - unfold filterData. induction (categories st) as [|category cats IH]; [constructor|].
    cbn [List.map List.filter].
    destruct (keepCategory (filterCategory st category)); cbn [List.map].
    + apply sublist_skip, IH.
    + apply sublist_cons, IH.
  - intros category. apply filter_sublist.
  - apply filterData_shown_sublist.
Qed.

(** X2. computeStats counts the sections of the categories it is given and
    the links of these sections; the quick links of a category are not
    counted. On the filtered view neither number exceeds its total over
    the dataset: the total of sections of computeGlobalTotals and the
    total of links of updateInsights. *)
Theorem stats_count_shown_sections (st : State) (cats : list FilteredCategory) :
  sectionCount (computeStats cats) = length (flat_map sections cats)
  /\ linkCount (computeStats cats)
     = length (flat_map s_links (flat_map sections cats))
  /\ sectionCount (computeStats (filterData st))
     <= totalSections (computeGlobalTotals st)
  /\ linkCount (computeStats (filterData st)) <= insightLinks (updateInsights st).
Proof.
  assert (forall l, sectionCount (computeStats l) = length (flat_map sections l)
                    /\ linkCount (computeStats l)
                       = length (flat_map s_links (flat_map sections l)))
    as Hcount.
  { intros l. unfold computeStats. rewrite computeStats_fold. split; reflexivity. }
  destruct (Hcount cats) as [Hsec Hlink].
  destruct (Hcount (filterData st)) as [Hsec' Hlink'].
  pose proof (filterData_shown_sublist st) as Hsub.
  repeat split; try assumption.
  - rewrite Hsec'. unfold computeGlobalTotals. rewrite countCategory_fold.
    cbn [totalSections Nat.add]. apply sublist_length, Hsub.
  - rewrite Hlink'. unfold updateInsights. cbn [insightLinks].
    rewrite fold_left_add.
    rewrite (map_ext (fun category => countLinks (c_sections category))
                     (fun category => length (flat_map s_links (c_sections category))))
      by (intros; apply countLinks_spec).
    rewrite <- (length_flat_map_sum (fun category => flat_map s_links (c_sections category))).
    cbn [Nat.add].
    replace (flat_map (fun category => flat_map s_links (c_sections category))
                      (categories st))
      with (flat_map s_links (allSections st)).
    + apply sublist_length, flat_map_sublist_arg, Hsub.
    + unfold allSections. induction (categories st) as [|c cs IH]; [reflexivity|].
      cbn [flat_map]. rewrite flat_map_app, IH. reflexivity.
Qed.

Lemma sectionPasses_unfiltered (st : State) (category : Category) (section : SectionT) :
  categoryFilter st = "all" -> statusFilter st = "all" ->
  showPinnedOnly st = false -> searchTerms st = [] ->
  sectionPasses st category section = true.
Proof.
  intros Hcat Hstatus Hpin Hterms. apply sectionPasses_spec.
  repeat split; [left; exact Hcat | left; exact Hpin | left; exact Hstatus |].
  unfold passesSearch. rewrite Hterms. reflexivity.
Qed.

Lemma insightLinks_spec (st : State) :
  insightLinks (updateInsights st) = length (flat_map s_links (allSections st)).
Proof.
  unfold updateInsights, allSections. cbn [insightLinks].
  rewrite fold_left_add. cbn [Nat.add].
  induction (categories st) as [|c cs IH]; [reflexivity|].
  cbn [List.map flat_map]. rewrite flat_map_app, List.length_app, <- IH, countLinks_spec.
  reflexivity.
Qed.

Lemma totalSections_spec (st : State) :
  totalSections (computeGlobalTotals st) = length (allSections st).
Proof.
  unfold computeGlobalTotals. rewrite countCategory_fold. reflexivity.
Qed.

(** X3. With no filter set (category and status "all", pinned-only off,
    no search term) the view shows every section of every category, and
    the statistics of the view are the totals of the dataset. *)
Theorem unfiltered_view_is_the_dataset (st : State) :
  categoryFilter st = "all" -> statusFilter st = "all" ->
  showPinnedOnly st = false -> searchTerms st = [] ->
  List.map sections (filterData st) = List.map c_sections (categories st)
  /\ sectionCount (computeStats (filterData st))
     = totalSections (computeGlobalTotals st)
  /\ linkCount (computeStats (filterData st)) = insightLinks (updateInsights st).
Proof.
  intros Hcat Hstatus Hpin Hterms.
  assert (flat_map sections (filterData st) = allSections st) as Hall.
  { rewrite shown_sections. unfold allSections. apply flat_map_ext.
    intros category. apply forallb_filter_id, forallb_forall.
    intros section _. apply sectionPasses_unfiltered; assumption. }
  split; [|split].
  - rewrite filterData_map.
    rewrite (forallb_filter_id (fun category => keepCategory (filterCategory st category))).
    + rewrite List.map_map. apply map_ext. intros category.
      cbn [filterCategory sections]. apply forallb_filter_id, forallb_forall.
      intros section _. apply sectionPasses_unfiltered; assumption.
    + apply forallb_forall. intros category _. apply keepCategory_spec. right.
      unfold AllTermsIn. rewrite Hterms. constructor.
  - unfold computeStats. rewrite computeStats_fold. cbn [sectionCount Nat.add].
    rewrite Hall. symmetry. apply totalSections_spec.
  - unfold computeStats. rewrite computeStats_fold. cbn [linkCount Nat.add].
    rewrite Hall. symmetry. apply insightLinks_spec.
Qed.

Lemma unfiltered_view_is_the_dataset_witness :
  sectionCount (computeStats (filterData Sample.initial)) = 3
  /\ linkCount (computeStats (filterData Sample.initial)) = 1.
Proof.
  destruct (unfiltered_view_is_the_dataset Sample.initial) as (_ & Hsec & Hlink);
    try reflexivity.
  rewrite Hsec, Hlink. split; reflexivity.
Defined.

(** ** The insights panel and the command centre *)

Lemma filter_allocated_le_links (secs : list SectionT) :
  length (List.filter allocated secs) <= length (flat_map s_links secs).
Proof.
  induction secs as [|section secs IH]; [reflexivity|].
  cbn [List.filter flat_map]. rewrite List.length_app. unfold allocated at 1.
  destruct (s_links section); cbn [length Nat.eqb negb]; lia.
Qed.

(** X4. The two panels agree: updateInsights, which adds up the lengths of
    the section lists, and computeGlobalTotals, which counts section by
    section, give the same number of sections, and the same number of
    pinned keys. The allocated sections are at most the sections and at
    most the stored links, and there is a stored link exactly when a
    section is allocated. *)
Theorem insights_agree_with_totals (st : State) :
  insightSections (updateInsights st) = totalSections (computeGlobalTotals st)
  /\ insightPinned (updateInsights st) = pinnedCount (computeGlobalTotals st)
  /\ allocatedSections (computeGlobalTotals st)
     <= totalSections (computeGlobalTotals st)
  /\ allocatedSections (computeGlobalTotals st) <= insightLinks (updateInsights st)
  /\ (insightLinks (updateInsights st) = 0
      <-> allocatedSections (computeGlobalTotals st) = 0).
Proof.
  assert (allocatedSections (computeGlobalTotals st)
          = length (List.filter allocated (allSections st))) as Halloc.
  { unfold computeGlobalTotals. rewrite countCategory_fold. reflexivity. }
  rewrite totalSections_spec, insightLinks_spec, Halloc.
  split; [|split; [|split; [|split]]].
  - unfold updateInsights, allSections. cbn [insightSections].
    rewrite fold_left_add, length_flat_map_sum. reflexivity.
  - unfold computeGlobalTotals. destruct (fold_left _ _ _). reflexivity.
  - apply sublist_length, filter_sublist.
  - apply filter_allocated_le_links.
  - clear Halloc. induction (allSections st) as [|section secs IH]; [tauto|].
    cbn [List.filter flat_map]. rewrite List.length_app. unfold allocated at 1.
    destruct (s_links section); cbn [length Nat.eqb negb app Nat.add];
      [exact IH | lia].
Qed.

(** ** Years: the options of the status filter and the latest update *)

Lemma extractYear_IsYear (text : option string) (y : string) :
  extractYear text = Some y -> IsYear y.
Proof.
  unfold extractYear. intros Hexec.
  apply exec20dd_Some in Hexec as (i & (before & after & _ & _ & Hyear) & _).
  exact Hyear.
Qed.

Lemma isDigit_digit (d : ascii) :
  JS.isDigit d = true -> (0 <= JS.digit d <= 9)%Z.
Proof.
  unfold JS.isDigit, JS.digit. intros [Hlow Hhigh]%andb_true_iff.
  apply N.leb_le in Hlow, Hhigh. lia.
Qed.

Lemma digit_inj (c d : ascii) : JS.digit c = JS.digit d -> c = d.
Proof.
  unfold JS.digit, JS.code. intros Heq.
  rewrite <- (ascii_N_embedding c), <- (ascii_N_embedding d). f_equal. lia.
Qed.

Lemma Number_year (d1 d2 : ascii) :
  JS.Number (String "2" (String "0" (String d1 (String d2 EmptyString))))
  = (2000 + 10 * JS.digit d1 + JS.digit d2)%Z.
Proof.
  unfold JS.Number. cbn [list_ascii_of_string fold_left].
  change (JS.digit "2") with 2%Z. change (JS.digit "0") with 0%Z. lia.
Qed.

Lemma IsYear_Number (y : string) :
  IsYear y -> (2000 <= JS.Number y <= 2099)%Z.
Proof.
  intros (d1 & d2 & -> & Hd1 & Hd2). rewrite Number_year.
  apply isDigit_digit in Hd1, Hd2. lia.
Qed.

Lemma IsYear_Number_inj (y y' : string) :
  IsYear y -> IsYear y' -> JS.Number y = JS.Number y' -> y = y'.
Proof.
  intros (d1 & d2 & -> & Hd1 & Hd2) (e1 & e2 & -> & He1 & He2).
  rewrite !Number_year. intros Heq.
  apply isDigit_digit in Hd1, Hd2, He1, He2.
  assert (JS.digit d1 = JS.digit e1) as H1 by lia.
  assert (JS.digit d2 = JS.digit e2) as H2 by lia.
  apply digit_inj in H1, H2. subst. reflexivity.
Qed.

Lemma IsYear_truthy (y : string) : IsYear y -> JS.truthy y = true.
Proof. intros (d1 & d2 & -> & _). reflexivity. Qed.

Lemma setAdd_In (x y : string) (items : list string) :
  In y (JS.setAdd x items) <-> y = x \/ In y items.
Proof.
  unfold JS.setAdd. case_bool_decide as Hin.
  - apply list_elem_of_In in Hin. split; [auto | intros [-> | ?]; assumption].
  - rewrite in_app_iff. cbn [In]. intuition congruence.
Qed.

Lemma setAdd_NoDup (x : string) (items : list string) :
  List.NoDup items -> List.NoDup (JS.setAdd x items).
Proof.
  intros Hnodup. unfold JS.setAdd. case_bool_decide as Hin; [exact Hnodup|].
  rewrite list_elem_of_In in Hin.
  apply List.NoDup_app; [exact Hnodup | repeat constructor; intros [] |].
  intros y Hy [<- | []]. contradiction.
Qed.

Lemma addYear_fold (secs : list SectionT) (years : list string) :
  List.NoDup years ->
  List.NoDup (fold_left addYear secs years)
  /\ (forall y, In y (fold_left addYear secs years)
                <-> In y years
                    \/ exists section, In section secs
                                       /\ extractYear (s_status section) = Some y).
Proof.
  revert years. induction secs as [|section secs IH]; intros years Hnodup.
  - cbn [fold_left]. split; [exact Hnodup|]. intros y. split; [auto|].
    intros [Hin | (section & [] & _)]. exact Hin.
  - cbn [fold_left].
    assert (List.NoDup (addYear years section)
            /\ forall y, In y (addYear years section)
                         <-> In y years \/ extractYear (s_status section) = Some y)
      as [Hnodup' Hin'].
    { unfold addYear. destruct (extractYear (s_status section)) as [year|] eqn:Hyear.
      - rewrite (IsYear_truthy year (extractYear_IsYear _ _ Hyear)).
        split; [apply setAdd_NoDup, Hnodup|]. intros y. rewrite setAdd_In.
        split; [intros [-> | ?]; auto | intros [? | [= ->]]; auto].
      - split; [exact Hnodup|]. intros y. split; [auto | intros [? | ?]; congruence]. }
    destruct (IH _ Hnodup') as [Hnodup'' Hin'']. split; [exact Hnodup''|].
    intros y. rewrite Hin'', Hin'. cbn [In]. split.
    + intros [[Hy | Hy] | (s & Hs & Hy)]; eauto 6.
    + intros [Hy | (s & [<- | Hs] & Hy)]; eauto 6.
Qed.

Lemma collectYears_flat (st : State) :
  collectYears st = fold_left addYear (allSections st) [].
Proof.
  unfold collectYears, allSections. generalize (@nil string).
  induction (categories st) as [|category cats IH]; intros years; [reflexivity|].
  cbn [fold_left flat_map]. rewrite fold_left_app. apply IH.
Qed.

Lemma collectYears_spec (st : State) :
  List.NoDup (collectYears st)
  /\ (forall y, In y (collectYears st)
                <-> exists section, In section (allSections st)
                                    /\ extractYear (s_status section) = Some y).
Proof.
  rewrite collectYears_flat.
  destruct (addYear_fold (allSections st) [] (List.NoDup_nil _)) as [Hnodup Hin].
  split; [exact Hnodup|]. intros y. rewrite Hin. cbn [In]. tauto.
Qed.

Lemma insertSorted_Permutation {A} (compare : A -> A -> Z) (x : A) (sorted : list A) :
  Permutation (JS.insertSorted compare x sorted) (x :: sorted).
Proof.
  induction sorted as [|y rest IH]; cbn [JS.insertSorted]; [reflexivity|].
  destruct (compare x y <=? 0)%Z; [reflexivity|].
  rewrite IH. apply perm_swap.
Qed.

Lemma sort_Permutation {A} (compare : A -> A -> Z) (xs : list A) :
  Permutation (JS.sort compare xs) xs.
Proof.
  induction xs as [|x xs IH]; cbn [JS.sort]; [reflexivity|].
  rewrite insertSorted_Permutation, IH. reflexivity.
Qed.

Lemma insertSorted_descending (x : string) (sorted : list string) :
  StronglySorted (fun a b => (JS.Number b <= JS.Number a)%Z) sorted ->
  StronglySorted (fun a b => (JS.Number b <= JS.Number a)%Z)
                 (JS.insertSorted byYearDescending x sorted).
Proof.
  induction 1 as [|y rest Hrest IH Hy]; cbn [JS.insertSorted].
  - repeat constructor.
  - unfold byYearDescending at 1. destruct (Z.leb_spec (JS.Number y - JS.Number x) 0).
    + constructor; [constructor; assumption|]. constructor; [lia|].
      eapply List.Forall_impl; [|exact Hy]. cbn beta. intros z Hz. lia.
    + constructor; [exact IH|].
      eapply Permutation_Forall; [symmetry; apply insertSorted_Permutation|].
      constructor; [lia | exact Hy].
Qed.

Lemma sort_descending (xs : list string) :
  StronglySorted (fun a b => (JS.Number b <= JS.Number a)%Z)
                 (JS.sort byYearDescending xs).
Proof.
  induction xs as [|x xs IH]; cbn [JS.sort]; [constructor|].
  apply insertSorted_descending, IH.
Qed.

Lemma descending_strict (ys : list string) :
  Forall IsYear ys -> List.NoDup ys ->
  StronglySorted (fun a b => (JS.Number b <= JS.Number a)%Z) ys ->
  StronglySorted (fun a b => (JS.Number b < JS.Number a)%Z) ys.
Proof.
  intros Hyears Hnodup Hsorted.
  induction Hsorted as [|y rest Hrest IH Hy]; [constructor|].
  inversion Hyears as [|? ? Hyear Hyears']; subst.
  inversion Hnodup as [|? ? Hnotin Hnodup']; subst.
  constructor; [apply IH; assumption|].
  rewrite List.Forall_forall in Hy, Hyears' |- *. intros z Hz.
  destruct (Z.eq_dec (JS.Number z) (JS.Number y)) as [Heq|Hne].
  - apply IsYear_Number_inj in Heq; [subst; contradiction | auto | exact Hyear].
  - specialize (Hy z Hz). lia.
Qed.

Lemma populateStatusOptions_In (st : State) (y : string) :
  In y (populateStatusOptions st)
  <-> exists section, In section (allSections st)
                      /\ extractYear (s_status section) = Some y.
Proof.
  unfold populateStatusOptions.
  rewrite <- (proj2 (collectYears_spec st)).
  split; apply Permutation_in;
    [apply sort_Permutation | symmetry; apply sort_Permutation].
Qed.

Lemma allSections_In (st : State) (section : SectionT) :
  In section (allSections st)
  <-> exists category, In category (categories st)
                       /\ In section (c_sections category).
Proof. apply in_flat_map. Qed.

(** X5. The options of the status filter are exactly the years that
    extractYear finds in the status of some section of the dataset, each
    once, from the latest year down; each is "20" followed by two
    digits. *)
Theorem status_options_are_the_years (st : State) :
  (forall y, In y (populateStatusOptions st)
             <-> exists category section,
                   In category (categories st)
                   /\ In section (c_sections category)
                   /\ extractYear (s_status section) = Some y)
  /\ StronglySorted (fun a b => (JS.Number b < JS.Number a)%Z)
                    (populateStatusOptions st)
  /\ List.NoDup (populateStatusOptions st)
  /\ Forall IsYear (populateStatusOptions st).
Proof.
  assert (Forall IsYear (populateStatusOptions st)) as Hyears.
  { apply List.Forall_forall. intros y Hy.
    apply populateStatusOptions_In in Hy as (section & _ & Hy).
    eapply extractYear_IsYear, Hy. }
  assert (List.NoDup (populateStatusOptions st)) as Hnodup.
  { eapply Permutation.Permutation_NoDup; [symmetry; apply sort_Permutation|].
    apply collectYears_spec. }
  split; [|split; [|split]]; try assumption.
  - intros y. rewrite populateStatusOptions_In. split.
    + intros (section & Hin & Hy). apply allSections_In in Hin as (category & ? & ?).
      eauto.
    + intros (category & section & Hc & Hs & Hy). exists section.
      split; [apply allSections_In; eauto | exact Hy].
  - apply descending_strict; [assumption | assumption | apply sort_descending].
Qed.

Lemma CategoryShown_not_empty (st : State) (category : Category) :
  CategoryShown st category -> rendersEmptyState st = false.
Proof.
  intros [_ Hin]. unfold rendersEmptyState.
  destruct (filterData st); [destruct Hin | reflexivity].
Qed.

(** X6. No option of the status filter leads to an empty page: chosen as
    the only filter, an option shows at least one section, since the
    options and the filter use the same extractYear. *)
Theorem status_option_shows_a_section (st : State) (y : string) :
  In y (populateStatusOptions st) ->
  exists category section,
    SectionShown (withFilters st EmptyString y "all" false) category section
    /\ extractYear (s_status section) = Some y
    /\ rendersEmptyState (withFilters st EmptyString y "all" false) = false.
Proof.
  intros Hin. apply populateStatusOptions_In in Hin as (section & Hsec & Hy).
  apply allSections_In in Hsec as (category & Hcat & Hsec).
  exists category, section.
  assert (SectionShown (withFilters st EmptyString y "all" false) category section)
    as Hshown.
  { apply SectionShown_spec. split; [exact Hcat|]. split; [exact Hsec|].
    apply sectionPasses_spec. cbn [withFilters categoryFilter showPinnedOnly statusFilter].
    split; [left; reflexivity|]. split; [left; reflexivity|].
    split; [right; exact Hy | reflexivity]. }
  split; [exact Hshown|]. split; [exact Hy|].
  eapply CategoryShown_not_empty, Hshown.
Qed.

Lemma status_option_shows_a_section_witness :
  exists category section,
    SectionShown (withFilters Sample.initial EmptyString "2023" "all" false)
                 category section
    /\ extractYear (s_status section) = Some "2023"
    /\ rendersEmptyState (withFilters Sample.initial EmptyString "2023" "all" false)
       = false.
Proof.
  apply (status_option_shows_a_section Sample.initial "2023").
  vm_compute. left. reflexivity.
Defined.

(** X7. The latest update of the insights panel is the first option of the
    status filter: a year of some section that no year of the dataset
    exceeds. It is missing (the panel shows a dash) exactly when no
    section has a year in its status. *)
Theorem latest_update_is_the_greatest_year (st : State) :
  latestUpdate (updateInsights st) = head (populateStatusOptions st)
  /\ (latestUpdate (updateInsights st) = None
      <-> forall section, In section (allSections st) ->
                          extractYear (s_status section) = None)
  /\ (forall y, latestUpdate (updateInsights st) = Some y ->
        (exists section, In section (allSections st)
                         /\ extractYear (s_status section) = Some y)
        /\ forall section y',
             In section (allSections st) ->
             extractYear (s_status section) = Some y' ->
             (JS.Number y' <= JS.Number y)%Z).
Proof.
  assert (latestUpdate (updateInsights st) = head (populateStatusOptions st)) as Hhead.
  { cbn [updateInsights latestUpdate]. fold (populateStatusOptions st).
    destruct (populateStatusOptions st) as [|y rest] eqn:Hopts; [reflexivity|].
    assert (In y (populateStatusOptions st)) as Hy by (rewrite Hopts; left; reflexivity).
    apply populateStatusOptions_In in Hy as (section & _ & Hy).
    rewrite (IsYear_truthy y (extractYear_IsYear _ _ Hy)). reflexivity. }
  rewrite Hhead. split; [reflexivity|]. split.
  - split.
    + intros Hnone section Hsec.
      destruct (extractYear (s_status section)) as [y|] eqn:Hy; [|reflexivity].
      assert (In y (populateStatusOptions st)) as Hin
        by (apply populateStatusOptions_In; eauto).
      destruct (populateStatusOptions st); [destruct Hin | discriminate].
    + intros Hnone. destruct (populateStatusOptions st) as [|y rest] eqn:Hopts;
        [reflexivity|].
      assert (In y (populateStatusOptions st)) as Hy by (rewrite Hopts; left; reflexivity).
      apply populateStatusOptions_In in Hy as (section & Hsec & Hy).
      rewrite (Hnone section Hsec) in Hy. discriminate.
  - intros y Hy.
    pose proof (sort_descending (collectYears st)) as Hsorted.
    fold (populateStatusOptions st) in Hsorted.
    destruct (populateStatusOptions st) as [|y0 rest] eqn:Hopts; [discriminate|].
    injection Hy as ->. split.
    + apply populateStatusOptions_In. rewrite Hopts. left. reflexivity.
    + intros section y' Hsec Hy'.
      assert (In y' (populateStatusOptions st)) as Hin
        by (apply populateStatusOptions_In; eauto).
      rewrite Hopts in Hin. destruct Hin as [<- | Hin]; [lia|].
      apply StronglySorted_inv in Hsorted as [_ Hall].
      rewrite List.Forall_forall in Hall. apply Hall, Hin.
Qed.

(** X8. What extractYear returns is always "20" followed by two digits, a
    number from 2000 to 2099, and extractYear finds it again in its own
    result: a year read from a status is a filter value that selects that
    status. *)
Theorem extractYear_result_is_a_year (text : option string) (y : string) :
  extractYear text = Some y ->
  IsYear y
  /\ String.length y = 4
  /\ (2000 <= JS.Number y <= 2099)%Z
  /\ extractYear (Some y) = Some y
  /\ y <> "all".
Proof.
  intros Hy. pose proof (extractYear_IsYear _ _ Hy) as Hyear.
  split; [exact Hyear|]. split; [|split; [apply IsYear_Number, Hyear|split]].
  - destruct Hyear as (d1 & d2 & -> & _). reflexivity.
  - unfold extractYear. destruct y as [|c y']; [destruct Hyear as (? & ? & ? & _); discriminate|].
    cbn [exec20dd]. replace (yearAt (String c y')) with (Some (String c y')); [reflexivity|].
    symmetry. apply yearAt_spec. exists EmptyString, EmptyString.
    rewrite append_empty_r. auto.
  - destruct Hyear as (d1 & d2 & -> & _). discriminate.
Qed.

Lemma extractYear_result_is_a_year_witness :
  extractYear (Some "2023") = Some "2023".
Proof.
  apply (extractYear_result_is_a_year (Some "Updated 2023 and 2024") "2023").
  reflexivity.
Defined.

(** ** Section keys and pins *)

Lemma sectionKey_inj (c1 s1 c2 s2 : string) :
  holds "-" c1 = false -> holds "-" c2 = false ->
  sectionKey c1 s1 = sectionKey c2 s2 -> c1 = c2 /\ s1 = s2.
Proof.
  unfold sectionKey. revert c2.
  induction c1 as [|a c1 IH]; intros [|b c2] H1 H2 Hkey.
  - change (String "-" s1 = String "-" s2) in Hkey. injection Hkey as ->. auto.
  - change (String "-" s1 = String b (c2 +:+ "-" +:+ s2)) in Hkey.
    injection Hkey as <- _. cbn in H2. discriminate.
  - change (String a (c1 +:+ "-" +:+ s1) = String "-" s2) in Hkey.
    injection Hkey as -> _. cbn in H1. discriminate.
  - rewrite !append_cons in Hkey. injection Hkey as -> Hkey.
    cbn [holds] in H1, H2. apply orb_false_iff in H1 as [_ H1], H2 as [_ H2].
    destruct (IH c2 H1 H2 Hkey) as [-> ->]. auto.
Qed.

(** X9. Sections of categories whose codes hold no hyphen have different
    keys unless category code and section code are the same, so a pin
    marks one section. With a hyphen in a category code two sections can
    share a key, and pinning one pins the other. *)
Theorem sectionKey_injective_without_hyphen :
  (forall c1 s1 c2 s2,
      holds "-" c1 = false -> holds "-" c2 = false ->
      sectionKey c1 s1 = sectionKey c2 s2 -> c1 = c2 /\ s1 = s2)
  /\ (forall S : gset string,
        has (sectionKey "A" "B-C") (togglePin S (sectionKey "A-B" "C"))
        = negb (has (sectionKey "A" "B-C") S)).
Proof.
  split; [apply sectionKey_inj|]. intros S.
  change (sectionKey "A-B" "C") with (sectionKey "A" "B-C").
  unfold togglePin. destruct (has (sectionKey "A" "B-C") S); cbn [negb].
  - apply bool_decide_eq_false. intros [_ Hne]%elem_of_difference.
    apply Hne, elem_of_singleton. reflexivity.
  - apply bool_decide_eq_true, elem_of_union. right.
    apply elem_of_singleton. reflexivity.
Qed.

Lemma sectionKey_injective_without_hyphen_witness :
  "A" = "A" /\ "A1" = "A1".
Proof.
  apply (proj1 sectionKey_injective_without_hyphen "A" "A1" "A" "A1");
    reflexivity.
Defined.

Lemma togglePin_size (S : gset string) (key : string) :
  size (togglePin S key) = if has key S then size S - 1 else size S + 1.
Proof.
  unfold togglePin, has. case_bool_decide as Hin.
  - rewrite size_difference by set_solver. rewrite size_singleton. reflexivity.
  - rewrite size_union by set_solver. rewrite size_singleton. reflexivity.
Qed.

(** X10. The listeners of the four filters leave the global totals and the
    insights as they are. A click on a pin changes the pin count by one,
    down when the key was pinned and up when it was not, and leaves the
    dataset, the other totals and the filters as they are. *)
Theorem events_and_totals (st : State) :
  (forall event,
      match event with Loaded _ | PinClick _ => False | _ => True end ->
      computeGlobalTotals (handle event st) = computeGlobalTotals st
      /\ updateInsights (handle event st) = updateInsights st)
  /\ (forall key,
        totalSections (computeGlobalTotals (handle (PinClick key) st))
        = totalSections (computeGlobalTotals st)
        /\ allocatedSections (computeGlobalTotals (handle (PinClick key) st))
           = allocatedSections (computeGlobalTotals st)
        /\ allocationProgress (computeGlobalTotals (handle (PinClick key) st))
           = allocationProgress (computeGlobalTotals st)
        /\ pinnedCount (computeGlobalTotals (handle (PinClick key) st))
           = (if has key (pinned st)
              then pinnedCount (computeGlobalTotals st) - 1
              else pinnedCount (computeGlobalTotals st) + 1)
        /\ (has key (pinned st) = true ->
            1 <= pinnedCount (computeGlobalTotals st))
        /\ filterData (handle (PinClick key) (handle (PinClick key) st))
           = filterData st).
Proof.
  split.
  - intros [cats|value| |value|value|checked|key] Hevent;
      try contradiction; split; reflexivity.
  - intros key.
    assert (forall st', pinnedCount (computeGlobalTotals st') = size (pinned st'))
      as Hcount.
    { intros st'. unfold computeGlobalTotals. destruct (fold_left _ _ _). reflexivity. }
    assert (forall S, fold_left countCategory (categories (withPinned st S)) (0, 0)
                      = fold_left countCategory (categories st) (0, 0)) as Hfold
      by reflexivity.
    unfold handle.
    split; [|split; [|split]];
      try (unfold computeGlobalTotals; rewrite Hfold;
           destruct (fold_left countCategory (categories st) (0, 0)); reflexivity).
    split; [|split].
    + rewrite !Hcount. cbn [withPinned pinned]. apply togglePin_size.
    + rewrite Hcount. intros Hhas%has_spec.
      assert (size ({[ key ]} : gset string) <= size (pinned st)) as Hle
        by (apply subseteq_size; set_solver).
      rewrite size_singleton in Hle. exact Hle.
    + cbn [withPinned pinned categories searchTerm statusFilter
             categoryFilter showPinnedOnly].
      rewrite togglePin_twice. destruct st; reflexivity.
Qed.

(** X11. In the pinned-only view a click on the pin of a section takes the
    section off the page when it was pinned, and puts it on the page when
    it was not and the other filters let it through. *)
Theorem pin_click_in_pinned_view (st : State) (category : Category) (section : SectionT) :
  showPinnedOnly st = true ->
  SectionShown
    (handle (PinClick (sectionKey (c_code category) (s_code section))) st)
    category section
  <-> (sectionKey (c_code category) (s_code section) ∉ pinned st)
      /\ SectionShown
           (withFilters st (searchTerm st) (statusFilter st) (categoryFilter st) false)
           category section.
Proof.
  intros Hpinned. rewrite !SectionShown_spec, !sectionPasses_spec.
  change (passesSearch (handle _ st) category section)
    with (passesSearch st category section).
  change (passesSearch (withFilters _ _ _ _ _) category section)
    with (passesSearch st category section).
  cbn [handle withPinned withFilters categories categoryFilter showPinnedOnly
         statusFilter pinned].
  rewrite Hpinned.
  rewrite (togglePin_elem (pinned st)
             (sectionKey (c_code category) (s_code section))
             (sectionKey (c_code category) (s_code section))).
  intuition congruence.
Qed.

Lemma pin_click_in_pinned_view_witness :
  ~ SectionShown (handle (PinClick (sectionKey "A" "A1")) Sample.pinnedOnly)
                 Sample.catA Sample.A1
  /\ SectionShown (handle (PinClick (sectionKey "B" "B1")) Sample.pinnedOnly)
                  Sample.catB Sample.B1.
Proof.
  split.
  - intros Hshown.
    apply (pin_click_in_pinned_view Sample.pinnedOnly Sample.catA Sample.A1)
      in Hshown as [Hnot _]; [|reflexivity].
    apply Hnot. vm_compute. reflexivity.
  - apply (pin_click_in_pinned_view Sample.pinnedOnly Sample.catB Sample.B1);
      [reflexivity|]. split.
    + intros Hin%has_spec. vm_compute in Hin. discriminate.
    + apply SectionShown_spec.
      split; [right; left; reflexivity|]. split; [left; reflexivity|].
      vm_compute. reflexivity.
Defined.

(** ** The search box *)

Lemma split_at_whiteSpace (s : string) :
  JS.atWhiteSpace s = true ->
  exists pieces, JS.splitWhiteSpace s = EmptyString :: pieces.
Proof.
  induction s as [|c s IH]; [discriminate|].
  cbn [JS.atWhiteSpace JS.splitWhiteSpace]. intros ->.
  destruct (JS.atWhiteSpace s); eauto.
Qed.

(** White space in front adds no term. *)
Lemma terms_whiteSpace_cons (c : ascii) (s : string) :
  JS.isWhiteSpace c = true ->
  exists pieces,
    JS.splitWhiteSpace (String c s) = EmptyString :: pieces
    /\ List.filter JS.truthy pieces
       = List.filter JS.truthy (JS.splitWhiteSpace s).
Proof.
  intros Hc. cbn [JS.splitWhiteSpace]. rewrite Hc.
  destruct (JS.atWhiteSpace s) eqn:Hs; [|eauto].
  destruct (split_at_whiteSpace s Hs) as (pieces & Hpieces).
  rewrite Hpieces. eauto.
Qed.

Lemma terms_trimStart (s : string) :
  List.filter JS.truthy (JS.splitWhiteSpace (JS.trimStart s))
  = List.filter JS.truthy (JS.splitWhiteSpace s).
Proof.
  induction s as [|c s IH]; [reflexivity|]. cbn [JS.trimStart].
  destruct (JS.isWhiteSpace c) eqn:Hc; [|reflexivity].
  destruct (terms_whiteSpace_cons c s Hc) as (pieces & -> & Hpieces).
  cbn [List.filter JS.truthy]. rewrite Hpieces. exact IH.
Qed.

Lemma split_cons_token (c : ascii) (s piece : string) (pieces : list string) :
  JS.isWhiteSpace c = false ->
  JS.splitWhiteSpace s = piece :: pieces ->
  JS.splitWhiteSpace (String c s) = String c piece :: pieces.
Proof. intros Hc Hs. cbn [JS.splitWhiteSpace]. rewrite Hc, Hs. reflexivity. Qed.

(** Taking white space off the end keeps the first piece and the terms
    after it. *)
Lemma split_trimEnd (s : string) :
  exists piece pieces pieces',
    JS.splitWhiteSpace (JS.trimEnd s) = piece :: pieces
    /\ JS.splitWhiteSpace s = piece :: pieces'
    /\ List.filter JS.truthy pieces = List.filter JS.truthy pieces'.
Proof.
  induction s as [|c s (piece & pieces & pieces' & Htrim & Hs & Hterms)].
  - exists EmptyString, [], []. auto.
  - assert (List.filter JS.truthy (JS.splitWhiteSpace (JS.trimEnd s))
            = List.filter JS.truthy (JS.splitWhiteSpace s)) as Hall.
    { rewrite Htrim, Hs. cbn [List.filter]. rewrite Hterms. reflexivity. }
    destruct (JS.isWhiteSpace c) eqn:Hc.
    + destruct (terms_whiteSpace_cons c s Hc) as (rest' & Hrest' & Hfilter').
      destruct (JS.trimEnd s) as [|d r] eqn:Hr.
      * cbn [JS.trimEnd]. rewrite Hr, Hc.
        exists EmptyString, [], rest'. split; [reflexivity|]. split; [exact Hrest'|].
        rewrite Hfilter', <- Hall. reflexivity.
      * cbn [JS.trimEnd]. rewrite Hr.
        destruct (terms_whiteSpace_cons c (String d r) Hc) as (rest & Hrest & Hfilter).
        exists EmptyString, rest, rest'. split; [exact Hrest|]. split; [exact Hrest'|].
        rewrite Hfilter, Hfilter'. exact Hall.
    + exists (String c piece), pieces, pieces'.
      split; [|split; [|exact Hterms]].
      * cbn [JS.trimEnd]. destruct (JS.trimEnd s) as [|d r] eqn:Hr.
        -- rewrite Hc. injection Htrim as <- <-. cbn [JS.splitWhiteSpace].
           rewrite Hc. reflexivity.
        -- apply split_cons_token; assumption.
      * apply split_cons_token; assumption.
Qed.

Lemma terms_trim (s : string) :
  List.filter JS.truthy (JS.splitWhiteSpace (JS.trim s))
  = List.filter JS.truthy (JS.splitWhiteSpace s).
Proof.
  unfold JS.trim.
  destruct (split_trimEnd (JS.trimStart s))
    as (piece & pieces & pieces' & -> & Hs & Hterms).
  rewrite <- terms_trimStart, Hs. cbn [List.filter]. rewrite Hterms. reflexivity.
Qed.

Lemma atWhiteSpace_trimStart (s : string) :
  JS.atWhiteSpace (JS.trimStart s) = false.
Proof.
  induction s as [|c s IH]; [reflexivity|]. cbn [JS.trimStart].
  destruct (JS.isWhiteSpace c) eqn:Hc; [exact IH | exact Hc].
Qed.

Lemma atWhiteSpace_trimEnd (s : string) :
  JS.atWhiteSpace s = false -> JS.atWhiteSpace (JS.trimEnd s) = false.
Proof.
  destruct s as [|c s]; [reflexivity|]. cbn [JS.atWhiteSpace JS.trimEnd].
  intros Hc. rewrite Hc. destruct (JS.trimEnd s); exact Hc.
Qed.

(** A string that does not start with white space has a term unless it is
    empty. *)
Lemma terms_nonempty (s : string) :
  JS.atWhiteSpace s = false ->
  JS.truthy s = negb (Nat.eqb (length (List.filter JS.truthy (JS.splitWhiteSpace s))) 0).
Proof.
  destruct s as [|c s]; [reflexivity|]. cbn [JS.atWhiteSpace JS.truthy].
  intros Hc. cbn [JS.splitWhiteSpace]. rewrite Hc.
  destruct (splitWhiteSpace_cons s) as (piece & pieces & ->). reflexivity.
Qed.

Lemma searchTerms_length (st : State) :
  length (searchTerms st)
  = length (List.filter JS.truthy (JS.splitWhiteSpace (searchTerm st))).
Proof. rewrite searchTerms_lowercase. apply List.length_map. Qed.

(** The view depends on the search string through its terms only. *)
Lemma filterData_ext (st st' : State) :
  categories st = categories st' ->
  searchTerms st = searchTerms st' ->
  statusFilter st = statusFilter st' ->
  categoryFilter st = categoryFilter st' ->
  showPinnedOnly st = showPinnedOnly st' ->
  pinned st = pinned st' ->
  filterData st = filterData st'.
Proof.
  intros Hcats Hterms Hstatus Hcat Honly Hpins.
  unfold filterData, filterCategory, sectionPasses, passesSearch.
  rewrite Hcats, Hterms, Hstatus, Hcat, Honly, Hpins. reflexivity.
Qed.

(** X12. What the user types is trimmed before it is stored, and the
    trimming changes no search term: after the input event the terms are
    the pieces of the typed text between white space, in lower case. *)
Theorem search_input_terms (st : State) (value : string) :
  searchTerms (handle (SearchInput value) st)
  = List.map JS.toLowerCase
      (List.filter JS.truthy (JS.splitWhiteSpace value))
  /\ filterData (handle (SearchInput value) st)
     = filterData (withFilters st value (statusFilter st) (categoryFilter st)
                               (showPinnedOnly st)).
Proof.
  assert (searchTerms (handle (SearchInput value) st)
          = searchTerms (withFilters st value (statusFilter st) (categoryFilter st)
                                     (showPinnedOnly st))) as Hterms.
  { rewrite !searchTerms_lowercase. cbn [handle withFilters searchTerm].
    rewrite terms_trim. reflexivity. }
  split.
  - rewrite Hterms. apply searchTerms_lowercase.
  - apply filterData_ext; try reflexivity. exact Hterms.
Qed.

(** In every state that the events lead to, the search string is a trimmed
    text. *)
Lemma Reachable_trimmed (st : State) :
  Reachable st -> exists value, searchTerm st = JS.trim value.
Proof.
  induction 1 as [pins | event st _ (value & Hvalue)].
  - exists EmptyString. reflexivity.
  - destruct event; cbn [handle withFilters withPinned searchTerm]; eauto.
    exists EmptyString. reflexivity.
Qed.

(** X13. The program asks in two ways whether a search is on: filterData by
    the number of terms, shouldAutoOpenCategory and the clear button by the
    search string being non-empty. In every state that the events lead to
    the two agree. *)
Theorem search_tests_agree (st : State) :
  Reachable st ->
  updateClearSearchButton st = negb (Nat.eqb (length (searchTerms st)) 0)
  /\ (searchTerm st = EmptyString <-> searchTerms st = []).
Proof.
  intros Hreach. destruct (Reachable_trimmed st Hreach) as (value & Hvalue).
  assert (JS.truthy (searchTerm st)
          = negb (Nat.eqb (length (searchTerms st)) 0)) as Hagree.
  { rewrite searchTerms_length. apply terms_nonempty. rewrite Hvalue.
    apply atWhiteSpace_trimEnd, atWhiteSpace_trimStart. }
  split; [exact Hagree|].
  destruct (searchTerm st) as [|c rest] eqn:Hsearch;
    destruct (searchTerms st) as [|term terms] eqn:Hterms;
    cbn in Hagree; try discriminate; split; congruence.
Qed.

Lemma search_tests_agree_witness :
  updateClearSearchButton
    (handle (SearchInput "  Roll  ") (handle (Loaded [Sample.catA]) (startState ∅)))
  = true.
Proof.
  apply (search_tests_agree
           (handle (SearchInput "  Roll  ")
                   (handle (Loaded [Sample.catA]) (startState ∅)))).
  repeat constructor.
Defined.

(** ** What the page shows *)

Lemma filterData_In (st : State) (shown : FilteredCategory) :
  In shown (filterData st)
  <-> exists category, In category (categories st)
                       /\ shown = filterCategory st category
                       /\ keepCategory shown = true.
Proof.
  unfold filterData. rewrite filter_In, in_map_iff. split.
  - intros [(category & <- & Hin) Hkeep]. eauto.
  - intros (category & Hin & -> & Hkeep). eauto.
Qed.

Lemma filter_none {A} (f : A -> bool) (xs : list A) :
  (forall x, In x xs -> f x = false) -> List.filter f xs = [].
Proof.
  induction xs as [|x xs IH]; intros Hnone; [reflexivity|].
  cbn [List.filter]. rewrite (Hnone x) by (left; reflexivity).
  apply IH. intros y Hy. apply Hnone. right. exact Hy.
Qed.

(** X14. Which of the categories on the page are expanded. In the
    pinned-only view (no category filter): those that show a section. With
    a search string and neither of the two other filters: all of them. With
    a category filter: the categories of another code show no section and
    stay closed. *)
Theorem displayed_categories_expand (st : State) (shown : FilteredCategory) :
  In shown (filterData st) ->
  (categoryFilter st = "all" -> showPinnedOnly st = true ->
   (shouldAutoOpenCategory st shown = true <-> sections shown <> []))
  /\ (categoryFilter st = "all" -> showPinnedOnly st = false ->
      searchTerm st <> EmptyString ->
      shouldAutoOpenCategory st shown = true)
  /\ (categoryFilter st <> "all" -> code shown <> categoryFilter st ->
      sections shown = [] /\ shouldAutoOpenCategory st shown = false).
Proof.
  intros (category & Hin & -> & Hkeep)%filterData_In.
  unfold shouldAutoOpenCategory. split; [|split].
  - intros Hall Hpinned. rewrite Hall, Hpinned. cbn [String.eqb Ascii.eqb Bool.eqb negb].
    rewrite somePinned_spec. split.
    + intros (section & Hsec & _) Hnil. rewrite Hnil in Hsec. destruct Hsec.
    + destruct (sections (filterCategory st category)) as [|section rest] eqn:Hsecs;
        [congruence|]. intros _. exists section. split; [left; reflexivity|].
      assert (In section (sections (filterCategory st category))) as Hsec
        by (rewrite Hsecs; left; reflexivity).
      cbn [filterCategory sections] in Hsec. apply filter_In in Hsec as [_ Hpass].
      apply sectionPasses_spec in Hpass as (_ & [Hoff | Hpin] & _); [congruence|].
      exact Hpin.
  - intros Hall Hoff Hsearch%truthy_spec. rewrite Hall, Hoff, Hsearch.
    cbn [String.eqb Ascii.eqb Bool.eqb negb].
    unfold keepCategory in Hkeep.
    destruct (sections (filterCategory st category)); exact Hkeep.
  - intros Hset Hcode.
    destruct (String.eqb_spec (categoryFilter st) "all") as [|_]; [contradiction|].
    cbn [negb]. split.
    + cbn [filterCategory sections]. apply filter_none. intros section _.
      destruct (sectionPasses st category section) eqn:Hpass; [|reflexivity].
      apply sectionPasses_spec in Hpass as ([Hall | Hsame] & _); [contradiction|].
      cbn [filterCategory code] in Hcode. congruence.
    + apply String.eqb_neq. congruence.
Qed.

Lemma displayed_categories_expand_witness :
  shouldAutoOpenCategory Sample.pinnedOnly
                         (filterCategory Sample.pinnedOnly Sample.catB) = false.
Proof.
  apply not_true_is_false. intros Hopen.
  apply (displayed_categories_expand Sample.pinnedOnly
           (filterCategory Sample.pinnedOnly Sample.catB)) in Hopen;
    [apply Hopen | right; left | | ]; reflexivity.
Defined.

Lemma rendersEmptyState_spec (st : State) :
  rendersEmptyState st = true
  <-> forall category, In category (categories st) ->
                       keepCategory (filterCategory st category) = false.
Proof.
  unfold rendersEmptyState. rewrite Nat.eqb_eq, length_zero_iff_nil, filterData_map.
  split.
  - intros Hnil category Hin.
    destruct (keepCategory (filterCategory st category)) eqn:Hkeep; [|reflexivity].
    apply map_eq_nil in Hnil.
    assert (In category
              (List.filter (fun c => keepCategory (filterCategory st c)) (categories st)))
      as Hshown by (apply filter_In; auto).
    rewrite Hnil in Hshown. destruct Hshown.
  - intros Hnone. rewrite filter_none; [reflexivity | exact Hnone].
Qed.

(** X15. The page shows the empty state exactly when no category of the
    dataset is kept by filterData. Without a search term every category is
    kept, so the empty state then appears for an empty dataset only: the
    status filter, the category filter and the pinned filter cannot empty
    the page by themselves. *)
Theorem empty_state_needs_a_search (st : State) :
  (rendersEmptyState st = true <-> forall category, ~ CategoryShown st category)
  /\ (searchTerms st = [] ->
      (rendersEmptyState st = true <-> categories st = []))
  /\ (rendersEmptyState st = true ->
      computeStats (filterData st) = {| sectionCount := 0; linkCount := 0 |}).
Proof.
  split; [|split].
  - rewrite rendersEmptyState_spec. split.
    + intros Hnone category [Hin Hkeep]%CategoryShown_keepCategory.
      rewrite (Hnone category Hin) in Hkeep. discriminate.
    + intros Hnone category Hin. apply not_true_is_false. intros Hkeep.
      apply (Hnone category), CategoryShown_keepCategory. auto.
  - intros Hterms. rewrite rendersEmptyState_spec. split.
    + intros Hnone. destruct (categories st) as [|category cats]; [reflexivity|].
      assert (keepCategory (filterCategory st category) = true) as Hkeep.
      { apply keepCategory_spec. right. unfold AllTermsIn. rewrite Hterms. constructor. }
      rewrite (Hnone category) in Hkeep by (left; reflexivity). discriminate.
    + intros -> category [].
  - unfold rendersEmptyState. rewrite Nat.eqb_eq, length_zero_iff_nil.
    intros ->. reflexivity.
Qed.

(** X16. Relaxing filters never hides a section: a section on the page
    stays on the page when the search is cleared, the status filter or the
    category filter is set back to "all" or the pinned filter is switched
    off, in any combination. *)
Theorem relaxed_filters_keep_sections (st : State) (category : Category)
    (section : SectionT) (search status cat : string) (only : bool) :
  SectionShown st category section ->
  search = searchTerm st \/ search = EmptyString ->
  status = statusFilter st \/ status = "all" ->
  cat = categoryFilter st \/ cat = "all" ->
  only = showPinnedOnly st \/ only = false ->
  SectionShown (withFilters st search status cat only) category section.
Proof.
  rewrite !SectionShown_spec, !sectionPasses_spec.
  intros (Hc & Hs & Hcat & Hpin & Hstatus & Hsearch) Hsearch' Hstatus' Hcat' Honly'.
  cbn [withFilters categories categoryFilter showPinnedOnly statusFilter pinned].
  repeat split; try assumption.
  - destruct Hcat' as [-> | ->]; auto.
  - destruct Honly' as [-> | ->]; auto.
  - destruct Hstatus' as [-> | ->]; auto.
  - destruct Hsearch' as [-> | ->]; [exact Hsearch | reflexivity].
Qed.

Lemma relaxed_filters_keep_sections_witness :
  SectionShown (withFilters Sample.pinnedOnly EmptyString "all" "all" false)
               Sample.catA Sample.A1.
Proof.
  apply (relaxed_filters_keep_sections Sample.pinnedOnly Sample.catA Sample.A1);
    try (right; reflexivity).
  apply SectionShown_spec. split; [left; reflexivity|]. split; [left; reflexivity|].
  vm_compute. reflexivity.
Defined.

(** X17. Every option of the category filter belongs to a category of the
    dataset; chosen as the only filter it shows all sections of that
    category, and sections of categories with that code only. *)
Theorem category_option_shows_its_sections (st : State) (value text : string) :
  In (value, text) (populateCategoryFilter st) ->
  exists category,
    In category (categories st)
    /\ c_code category = value
    /\ text = c_code category +:+ ". " +:+ c_title category
    /\ (forall section,
          In section (c_sections category) ->
          SectionShown (withFilters st EmptyString "all" value false)
                       category section)
    /\ (forall other section,
          SectionShown (withFilters st EmptyString "all" value false) other section ->
          value = "all" \/ c_code other = value).
Proof.
  unfold populateCategoryFilter. intros (category & [= <- <-] & Hin)%in_map_iff.
  exists category.
  split; [exact Hin|]. split; [reflexivity|]. split; [reflexivity|]. split.
  - intros section Hsec. apply SectionShown_spec.
    split; [exact Hin|]. split; [exact Hsec|]. apply sectionPasses_spec.
    cbn [withFilters categoryFilter showPinnedOnly statusFilter].
    split; [right; reflexivity|]. split; [left; reflexivity|].
    split; [left; reflexivity | reflexivity].
  - intros other section (_ & _ & Hpass)%SectionShown_spec.
    apply sectionPasses_spec in Hpass as ([Hall | Hsame] & _); auto.
Qed.

Lemma category_option_shows_its_sections_witness :
  exists category,
    In category (categories Sample.initial)
    /\ c_code category = "B"
    /\ "B. Finance" = c_code category +:+ ". " +:+ c_title category
    /\ (forall section,
          In section (c_sections category) ->
          SectionShown (withFilters Sample.initial EmptyString "all" "B" false)
                       category section)
    /\ (forall other section,
          SectionShown (withFilters Sample.initial EmptyString "all" "B" false)
                       other section ->
          "B" = "all" \/ c_code other = "B").
Proof.
  apply (category_option_shows_its_sections Sample.initial "B" "B. Finance").
  right. left. reflexivity.
Defined.

Lemma slice_prefix (prefix rest : string) :
  JS.slice (String.length prefix) (prefix +:+ rest) = rest.
Proof. induction prefix as [|c prefix IH]; [reflexivity | exact IH]. Qed.

Lemma replace_unfold (s pattern replacement : string) :
  JS.replace s pattern replacement
  = if JS.startsWith s pattern
    then replacement +:+ JS.slice (String.length pattern) s
    else match s with
         | EmptyString => EmptyString
         | String c s' => String c (JS.replace s' pattern replacement)
         end.
Proof. destruct s; reflexivity. Qed.

(** A pattern at the head of the string is the first occurrence. *)
Lemma replace_prefix (prefix rest : string) :
  JS.replace (prefix +:+ rest) prefix EmptyString = rest.
Proof.
  assert (JS.startsWith (prefix +:+ rest) prefix = true) as Hstarts
    by (apply startsWith_spec; eauto).
  rewrite replace_unfold, Hstarts. apply slice_prefix.
Qed.

(** X18. The element of a category gets the id "category-" followed by the
    code, and the observer reads the code back from the id by replacing
    the first "category-" with nothing: it finds the code of the category,
    whatever the code holds, and different codes give different ids. *)
Theorem category_id_round_trip (categoryCode : string) :
  observedCode (categoryElementId categoryCode) = categoryCode
  /\ (forall other, categoryElementId other = categoryElementId categoryCode ->
                    other = categoryCode)
  /\ observedCode (categoryElementId (categoryElementId categoryCode))
     = categoryElementId categoryCode.
Proof.
  unfold observedCode, categoryElementId.
  split; [apply replace_prefix|]. split; [|apply replace_prefix].
  intros other Heq.
  change (String "c" (String "a" (String "t" (String "e" (String "g"
            (String "o" (String "r" (String "y" (String "-" other))))))))
          = String "c" (String "a" (String "t" (String "e" (String "g"
            (String "o" (String "r" (String "y" (String "-" categoryCode)))))))))
    in Heq.
  congruence.
Qed.

(** ** Pins across a reload *)

Lemma setDelete_elem (key k : string) (keys : list string) :
  k ∈ JS.setDelete key keys <-> k ∈ keys /\ k <> key.
Proof.
  unfold JS.setDelete. rewrite !list_elem_of_In, filter_In, negb_true_iff.
  rewrite String.eqb_neq. reflexivity.
Qed.

Lemma setAdd_elem (key k : string) (keys : list string) :
  k ∈ JS.setAdd key keys <-> k ∈ keys \/ k = key.
Proof. rewrite !list_elem_of_In, setAdd_In. tauto. Qed.

(** The keys in their order of insertion stay the keys of the set. *)
Lemma toggleInserted_keys (S : gset string) (keys : list string) (key : string) :
  list_to_set keys = S ->
  list_to_set (toggleInserted S keys key) = togglePin S key.
Proof.
  intros <-. apply set_eq. intros k.
  rewrite togglePin_elem, !elem_of_list_to_set. unfold toggleInserted, has.
  case_bool_decide as Hin; rewrite elem_of_list_to_set in Hin.
  - rewrite setDelete_elem. intuition congruence.
  - rewrite setAdd_elem. destruct (decide (k = key)) as [->|Hne]; tauto.
Qed.

Section PinStoreRoundTrip.
Context {Store : Type} `{!Storage Store} `{!JSONCodec}.

(** X19. Pins survive a reload. savePinned writes the keys in their order
    of insertion; when the storage takes the write and gives the text
    back, and JSON.parse reads the array that JSON.stringify wrote,
    loadPinned returns the pin set that was saved and writes nothing to
    the console. The order of insertion lists the keys of the pin set
    before a pin click, and still does after it. *)
Theorem saved_pins_are_loaded_back (w : World Store) (store' : Store) :
  list_to_set (inserted w) = pinned (state w) ->
  setItem (store w) STORAGE_KEY (JSON_stringify (inserted w))
  = JS.Returned store' ->
  getItem store' STORAGE_KEY
  = JS.Returned (Some (JSON_stringify (inserted w))) ->
  JS.truthy (JSON_stringify (inserted w)) = true ->
  JSON_parse (JSON_stringify (inserted w))
  = JS.Returned (JS.VArray (inserted w)) ->
  savePinned w
  = (JS.Returned tt,
     {| state := state w; inserted := inserted w; store := store';
        console := console w |})
  /\ loadPinned {| state := state w; inserted := inserted w; store := store';
                   console := console w |}
     = (JS.Returned (pinned (state w)),
        {| state := state w; inserted := inserted w; store := store';
           console := console w |})
  /\ (forall key,
        list_to_set (inserted (togglePinned key w).2)
        = pinned (state (togglePinned key w).2)).
Proof.
  intros Hkeys Hset Hget Htext Hparse. split; [|split].
  - rewrite savePinned_run, Hset. reflexivity.
  - rewrite loadPinned_run. cbn [store]. rewrite Hget, Htext, Hparse, Hkeys.
    reflexivity.
  - intros key. rewrite togglePinned_run, savePinned_run.
    cbn [state inserted store console].
    destruct (setItem (store w) STORAGE_KEY
                (JSON_stringify (toggleInserted (pinned (state w)) (inserted w) key)));
      cbn [state inserted withPinned pinned snd];
      apply toggleInserted_keys, Hkeys.
Qed.

End PinStoreRoundTrip.

(** After the pin of B-B1 was added to the pin of A-A1, the text written is
    the array of A-A1 and B-B1 in this order, and loadPinned reads the two
    pins back from it. *)
Lemma saved_pins_are_loaded_back_witness :
  loadPinned
    {| state := withPinned Sample.initial {[ "A-A1"; "B-B1" ]};
       inserted := ["A-A1"; "B-B1"];
       store := {| Sample.held := Some (STORAGE_KEY, Sample.keysAB);
                   Sample.readable := true; Sample.writable := true |};
       console := [] |}
  = (JS.Returned {[ "A-A1"; "B-B1" ]},
     {| state := withPinned Sample.initial {[ "A-A1"; "B-B1" ]};
        inserted := ["A-A1"; "B-B1"];
        store := {| Sample.held := Some (STORAGE_KEY, Sample.keysAB);
                    Sample.readable := true; Sample.writable := true |};
        console := [] |}).
Proof.
  destruct (saved_pins_are_loaded_back
              {| state := withPinned Sample.initial {[ "A-A1"; "B-B1" ]};
                 inserted := ["A-A1"; "B-B1"];
                 store := {| Sample.held := None; Sample.readable := true;
                             Sample.writable := true |};
                 console := [] |}
              {| Sample.held := Some (STORAGE_KEY, Sample.keysAB);
                 Sample.readable := true; Sample.writable := true |})
    as (_ & Hload & _); [vm_compute; reflexivity .. | exact Hload].
Defined.

(** The text that togglePinned writes follows the order of insertion: the
    same two pins are written as A-A1, B-B1 when B-B1 was pinned last and
    as B-B1, A-A1 when A-A1 was pinned last. *)
Example written_text_follows_insertion :
  Sample.held
    (store (togglePinned "B-B1"
              {| state := withPinned Sample.initial {[ "A-A1" ]};
                 inserted := ["A-A1"];
                 store := {| Sample.held := None; Sample.readable := true;
                             Sample.writable := true |};
                 console := [] |}).2)
  = Some (STORAGE_KEY, Sample.keysAB)
  /\ Sample.held
       (store (togglePinned "A-A1"
                 {| state := withPinned Sample.initial {[ "B-B1" ]};
                    inserted := ["B-B1"];
                    store := {| Sample.held := None; Sample.readable := true;
                                Sample.writable := true |};
                    console := [] |}).2)
     = Some (STORAGE_KEY, Sample.keysBA)
  /\ inserted
       (togglePinned "A-A1"
          {| state := withPinned Sample.initial {[ "A-A1"; "B-B1" ]};
             inserted := ["A-A1"; "B-B1"];
             store := {| Sample.held := None; Sample.readable := true;
                         Sample.writable := true |};
             console := [] |}).2
     = ["B-B1"].
Proof. repeat split; vm_compute; reflexivity. Qed.

(** ** The pinned view and the pin count *)

Lemma map_sublist {A B} (f : A -> B) (xs ys : list A) :
  xs `sublist_of` ys -> List.map f xs `sublist_of` List.map f ys.
Proof.
  induction 1; cbn [List.map];
    [constructor | apply sublist_skip | apply sublist_cons]; assumption.
Qed.

Lemma shown_keys (st : State) :
  showPinnedOnly st = true ->
  exists keys,
    length keys = length (flat_map sections (filterData st))
    /\ keys `sublist_of` allKeys st
    /\ (forall key, key ∈ keys -> key ∈ pinned st).
Proof.
  intros Honly. rewrite shown_sections. unfold allKeys.
  induction (categories st) as [|category cats (keys & Hlen & Hsub & Hpinned)].
  - exists []. repeat split; [constructor | intros key Hkey; inversion Hkey].
  - exists (List.map (fun section => sectionKey (c_code category) (s_code section))
                     (List.filter (sectionPasses st category) (c_sections category))
            ++ keys)%list.
    cbn [flat_map]. rewrite !List.length_app, List.length_map, Hlen.
    split; [reflexivity|]. split.
    + apply sublist_app; [|exact Hsub].
      apply map_sublist, filter_sublist.
    + intros key [Hkey | Hkey]%elem_of_app; [|apply Hpinned, Hkey].
      apply list_elem_of_In, in_map_iff in Hkey as (section & <- & Hsec).
      apply filter_In in Hsec as [_ Hpass].
      apply sectionPasses_spec in Hpass as (_ & [Hoff | Hpin] & _); [congruence|].
      exact Hpin.
Qed.

(** X20. When the keys of the sections of the dataset are all different,
    the pinned-only view shows at most as many sections as there are pins,
    whatever the other filters. *)
Theorem pinned_view_within_pin_count (st : State) :
  showPinnedOnly st = true ->
  List.NoDup (allKeys st) ->
  sectionCount (computeStats (filterData st))
  <= pinnedCount (computeGlobalTotals st).
Proof.
  intros Honly Hnodup.
  destruct (shown_keys st Honly) as (keys & Hlen & Hsub & Hpinned).
  replace (sectionCount (computeStats (filterData st))) with (length keys)
    by (unfold computeStats; rewrite computeStats_fold; exact Hlen).
  replace (pinnedCount (computeGlobalTotals st)) with (size (pinned st))
    by (unfold computeGlobalTotals; destruct (fold_left _ _ _); reflexivity).
  assert (NoDup keys) as Hkeys
    by (eapply sublist_NoDup; [apply NoDup_ListNoDup, Hnodup | exact Hsub]).
  rewrite <- (size_list_to_set (C:=gset string) keys Hkeys).
  apply subseteq_size. intros key Hkey%elem_of_list_to_set. apply Hpinned, Hkey.
Qed.

Lemma pinned_view_within_pin_count_witness :
  sectionCount (computeStats (filterData Sample.pinnedOnly)) <= 1.
Proof.
  apply (pinned_view_within_pin_count Sample.pinnedOnly); [reflexivity|].
  apply NoDup_ListNoDup, (bool_decide_unpack _). vm_compute. reflexivity.
Defined.

(** ** Narrowing the search *)

Lemma Substring_trans (a b c : string) :
  Substring a b -> Substring b c -> Substring a c.
Proof.
  intros (before & after & ->) (before' & after' & ->).
  exists (before' +:+ before), (after +:+ after').
  rewrite !append_assoc. reflexivity.
Qed.

Lemma AllTermsIn_narrow (st st' : State) (text : string) :
  Forall (fun term => Exists (fun term' => Substring term term') (searchTerms st'))
         (searchTerms st) ->
  AllTermsIn st' text -> AllTermsIn st text.
Proof.
  unfold AllTermsIn. rewrite !List.Forall_forall. intros Hnarrow Hall term Hterm.
  specialize (Hnarrow term Hterm). apply List.Exists_exists in Hnarrow as (term' & Hin & Hsub).
  eapply Substring_trans; [exact Hsub | apply Hall, Hin].
Qed.

(** X21. A search whose terms each hold a term of the search before (more
    words, or longer words) narrows the view: with the other filters the
    same, every section and every category it shows was shown before. *)
Theorem longer_search_narrows (st st' : State) :
  categories st' = categories st ->
  statusFilter st' = statusFilter st ->
  categoryFilter st' = categoryFilter st ->
  showPinnedOnly st' = showPinnedOnly st ->
  pinned st' = pinned st ->
  Forall (fun term => Exists (fun term' => Substring term term') (searchTerms st'))
         (searchTerms st) ->
  (forall category section,
      SectionShown st' category section -> SectionShown st category section)
  /\ (forall category, CategoryShown st' category -> CategoryShown st category).
Proof.
  intros Hcats Hstatus Hcat Honly Hpins Hnarrow.
  assert (forall category section,
             sectionPasses st' category section = true ->
             sectionPasses st category section = true) as Hpass.
  { intros category section. rewrite !sectionPasses_spec, !passesSearch_spec.
    rewrite Hstatus, Hcat, Honly, Hpins.
    intros (? & ? & ? & Hall). repeat split; try assumption.
    eapply AllTermsIn_narrow; eassumption. }
  split.
  - intros category section. rewrite !SectionShown_spec, Hcats.
    intros (? & ? & ?). auto.
  - intros category. rewrite !CategoryShown_keepCategory, !keepCategory_spec, Hcats.
    intros [Hin [(section & Hsec & Hshown) | Hall]]; split; try assumption.
    + left. eauto.
    + right. eapply AllTermsIn_narrow; eassumption.
Qed.

Lemma longer_search_narrows_witness :
  SectionShown (withFilters Sample.initial "fo" "all" "all" false)
               Sample.catA Sample.A1.
Proof.
  apply (longer_search_narrows
           (withFilters Sample.initial "fo" "all" "all" false)
           (withFilters Sample.initial "daily foo" "all" "all" false));
    try reflexivity.
  - change (Forall (fun term => Exists (fun term' => Substring term term')
                                       ["daily"; "foo"]) ["fo"]).
    constructor; [|constructor]. right. left. exists EmptyString, "o". reflexivity.
  - apply SectionShown_spec. split; [left; reflexivity|]. split; [left; reflexivity|].
    vm_compute. reflexivity.
Defined.
